(** * Facebook post scraper: the collection loop of [FacebookScraper.scrape_posts]

    A shallow embedding of [src/Facebook_scraper.py].  The browser is an
    external collaborator: every value the code reads from the Selenium
    driver (an element lookup, an attribute, the page height, the clock) is
    an observation supplied to the model, in the order the code reads it.
    A driver call that raises is an observation [None] (or [false] for a
    call whose value is not used); what the code does with the observation
    (filter, gate, counters, loop exits) is translated from the source.

    Driver calls outside any [try] block ([find_elements] at the top of the
    loop, the [scrollHeight] reads, [time.time()]) are taken to return. *)

From Stdlib Require Import List Bool Arith ZArith QArith Lia.
From Stdlib Require Import Ascii String.
Import ListNotations.
Close Scope Q_scope.

(** ** Python strings

    A [str] is modelled by its UTF-8 encoding, one [ascii] per byte.
    On encodings of text, equality, emptiness and the substring test of
    the bytes are those of the characters; whitespace is recognised
    character by character, on one, two or three bytes. *)

Module PyStr.

Open Scope string_scope.

Definition byte (c : ascii) : nat := nat_of_ascii c.

(** [str.isspace] for the characters below U+0080:
    U+0009..U+000D, U+001C..U+001F and U+0020. *)
Definition is_space (c : ascii) : bool :=
  let n := nat_of_ascii c in
  ((9 <=? n) && (n <=? 13) || (28 <=? n) && (n <=? 32))%nat%bool.

(** [str.isspace] for the characters encoded on two bytes:
    U+0085 (C2 85) and U+00A0 (C2 A0). *)
Definition two_byte_space (a b : ascii) : bool :=
  ((byte a =? 0xC2) && ((byte b =? 0x85) || (byte b =? 0xA0)))%nat%bool.

(** [str.isspace] for the characters encoded on three bytes:
    U+1680 (E1 9A 80), U+2000..U+200A (E2 80 80 .. E2 80 8A),
    U+2028, U+2029, U+202F (E2 80 A8, E2 80 A9, E2 80 AF),
    U+205F (E2 81 9F) and U+3000 (E3 80 80).  No character encoded on
    four bytes is whitespace. *)
Definition three_byte_space (a b c : ascii) : bool :=
  ((byte a =? 0xE1) && (byte b =? 0x9A) && (byte c =? 0x80) ||
   (byte a =? 0xE2) && (byte b =? 0x80) &&
     ((0x80 <=? byte c) && (byte c <=? 0x8A) ||
      (byte c =? 0xA8) || (byte c =? 0xA9) || (byte c =? 0xAF)) ||
   (byte a =? 0xE2) && (byte b =? 0x81) && (byte c =? 0x9F) ||
   (byte a =? 0xE3) && (byte b =? 0x80) && (byte c =? 0x80))%nat%bool.

(** What follows the first character of [s] when that character is
    whitespace. *)
Definition skip_space (s : string) : option string :=
  match s with
  | String a s1 =>
      if is_space a then Some s1
      else
        match s1 with
        | String b s2 =>
            if two_byte_space a b then Some s2
            else
              match s2 with
              | String c s3 =>
                  if three_byte_space a b c then Some s3 else None
              | EmptyString => None
              end
        | EmptyString => None
        end
  | EmptyString => None
  end.

(** [s.lstrip()] *)
Fixpoint lstrip (s : string) : string :=
  match s with
  | String a s1 =>
      if is_space a then lstrip s1
      else
        match s1 with
        | String b s2 =>
            if two_byte_space a b then lstrip s2
            else
              match s2 with
              | String c s3 =>
                  if three_byte_space a b c then lstrip s3 else s
              | EmptyString => s
              end
        | EmptyString => s
        end
  | EmptyString => EmptyString
  end.

(** [s.isspace() or s == ""]: nothing but whitespace. *)
Definition is_blank (s : string) : bool :=
  match lstrip s with EmptyString => true | _ => false end.

(** [s.rstrip()]: [s] up to the point from which only whitespace
    follows. *)
Fixpoint rstrip (s : string) : string :=
  match s with
  | EmptyString => EmptyString
  | String c s' => if is_blank s then EmptyString else String c (rstrip s')
  end.

(** [s.strip()] *)
Definition strip (s : string) : string := rstrip (lstrip s).

(** The UTF-8 encodings of the 29 characters for which [str.isspace]
    holds. *)
Definition whitespace : list string :=
  map (fun bytes => string_of_list_ascii (map ascii_of_nat bytes))
    [[0x09]; [0x0A]; [0x0B]; [0x0C]; [0x0D];
     [0x1C]; [0x1D]; [0x1E]; [0x1F]; [0x20];
     [0xC2; 0x85]; [0xC2; 0xA0];
     [0xE1; 0x9A; 0x80];
     [0xE2; 0x80; 0x80]; [0xE2; 0x80; 0x81]; [0xE2; 0x80; 0x82];
     [0xE2; 0x80; 0x83]; [0xE2; 0x80; 0x84]; [0xE2; 0x80; 0x85];
     [0xE2; 0x80; 0x86]; [0xE2; 0x80; 0x87]; [0xE2; 0x80; 0x88];
     [0xE2; 0x80; 0x89]; [0xE2; 0x80; 0x8A];
     [0xE2; 0x80; 0xA8]; [0xE2; 0x80; 0xA9]; [0xE2; 0x80; 0xAF];
     [0xE2; 0x81; 0x9F];
     [0xE3; 0x80; 0x80]]%nat.

(** A run of whitespace characters. *)
Inductive Blank : string -> Prop :=
| Blank_nil : Blank ""
| Blank_cons : forall w s, In w whitespace -> Blank s -> Blank (w ++ s).

(** [needle in hay] for two [str] values: substring test. *)
Fixpoint contains (needle hay : string) : bool :=
  String.prefix needle hay ||
  match hay with
  | EmptyString => false
  | String _ hay' => contains needle hay'
  end.

(** Truthiness of a [str]: the empty string is falsy. *)
Definition truthy (s : string) : bool :=
  match s with EmptyString => false | _ => true end.

(** Truthiness of an [Optional[str]]: [None] and [""] are falsy. *)
Definition truthy_opt (o : option string) : bool :=
  match o with None => false | Some s => truthy s end.

(** [x == y] on [Optional[str]]. *)
Definition opt_eqb (x y : option string) : bool :=
  match x, y with
  | None, None => true
  | Some a, Some b => String.eqb a b
  | _, _ => false
  end.

(** [x in xs] for a list of [Optional[str]]. *)
Definition mem (x : option string) (xs : list (option string)) : bool :=
  existsb (opt_eqb x) xs.

End PyStr.

(** ** A [try] block that keeps the assignments made before the exception

    The permalink / timestamp / author block (source lines 273-316) assigns
    [post_date], [link] and [poster_name] one after the other inside one
    [try]; the handler only logs.  A computation therefore threads the three
    locals and may stop early, and the locals survive the stop. *)

Module Try.

Record Locals := {
  link : option string;
  post_date : option string;
  poster_name : option string
}.

Definition t (A : Type) : Type := Locals -> Locals * option A.

Definition ret {A} (a : A) : t A := fun l => (l, Some a).

Definition raise {A} : t A := fun l => (l, None).

Definition bind {A B} (c : t A) (k : A -> t B) : t B :=
  fun l =>
    match c l with
    | (l', Some a) => k a l'
    | (l', None) => (l', None)
    end.

(** A driver call whose value is not used: [false] when it raises. *)
Definition call (ok : bool) : t unit := if ok then ret tt else raise.

(** A driver call whose value is used: [None] when it raises. *)
Definition read {A} (o : option A) : t A :=
  match o with Some a => ret a | None => raise end.

Definition set_link (v : option string) : t unit :=
  fun l => ({| link := v; post_date := post_date l; poster_name := poster_name l |}, Some tt).

Definition set_post_date (v : option string) : t unit :=
  fun l => ({| link := link l; post_date := v; poster_name := poster_name l |}, Some tt).

Definition set_poster_name (v : option string) : t unit :=
  fun l => ({| link := link l; post_date := post_date l; poster_name := v |}, Some tt).

(** [try: body  except: handler] *)
Definition try_except {A} (body handler : t A) : t A :=
  fun l =>
    match body l with
    | (l', Some a) => (l', Some a)
    | (l', None) => handler l'
    end.

(** [try: body  except Exception: log]: the locals after the block. *)
Definition swallow {A} (body : t A) (l : Locals) : Locals := fst (body l).

End Try.

Declare Scope try_scope.
Delimit Scope try_scope with try.
Notation "x <- c ;; k" := (Try.bind c (fun x => k))
  (at level 61, c at next level, right associativity) : try_scope.
Notation "c ;; k" := (Try.bind c (fun _ => k))
  (at level 61, right associativity) : try_scope.

(** ** Data model *)

Module Scraper.

Import PyStr.
Open Scope string_scope.

(** The dictionary yielded at source line 334. *)
Record PostRecord := {
  name : option string;
  text : string;
  link : option string;
  date : option string;
  images : list (option string);
  videos : list (option string);
  keyword : string
}.

(** Driver answers during the permalink / timestamp / author block, in the
    order the block asks for them (source lines 274-314). *)
Record MetaObs := {
  span_found : bool;               (* 274: find_element of the timestamp span *)
  span_in_view : bool;             (* 277-285: scrollIntoView, wait for viewport *)
  hover_ok : bool;                 (* 288-289: move_to_element *)
  tooltip_found : bool;            (* 294-296: wait for the tooltip element *)
  tooltip_filled : bool;           (* 297: wait for non-blank tooltip text *)
  tooltip_text : option string;    (* 298: date_tooltip.text *)
  click_ok : bool;                 (* 301: span_elem.click() *)
  url_changed : bool;              (* 302: wait current_url != old_url *)
  page_ready : bool;               (* 303: wait readyState == complete *)
  current_url : option string;     (* 304: driver.current_url *)
  name_primary : option string;    (* 308: first author selector, .text *)
  name_fallback : option string;   (* 310: second author selector, .text *)
  went_back : bool                 (* 313-314: back(), wait for old_url *)
}.

(** One [img] element at line 261.  [get_attribute("src")] is called
    once in the filter and, when the filter passes, once more for the
    value kept.  [None]: the call raises; [Some None]: it returns
    [None]. *)
Record Img := {
  src_tested : option (option string);
  src_kept : option (option string)
}.

(** Driver answers while one element of [elements] is processed.  The
    "Xem them" expansion (lines 245-251) only acts on the page and swallows
    its own exceptions; it reads nothing the record is built from. *)
Record Fragment := {
  story : option string;                  (* 255-256: story_message .text *)
  img_elements : option (list Img);       (* 260: find_elements, DOM order; 261 *)
  video_elements : option (list (option (option string)));
                                          (* 264: find_elements; 265: ancestor a, then its href *)
  old_url : option string;                (* 268: driver.current_url *)
  meta : MetaObs
}.

(** Driver answers during one iteration of the [while] loop. *)
Record Cycle := {
  elements : list Fragment;     (* 238 *)
  initial_count : nat;          (* 340 *)
  initial_height : Z;           (* 341 *)
  polls : list (Z * nat);       (* 344-345: (scrollHeight, fragment count) at each poll *)
  new_height : Z;               (* 348 *)
  now : Q                       (* 357: time.time() *)
}.

(** The loop's mutable locals. *)
Record State := {
  url_crawled : list (option string);
  last_height : Z;
  scroll_attempts : nat
}.

(** How the [while] loop was left: its condition became false (line 236),
    the [break] of line 359, or the observations ran out while the loop
    was still live. *)
Inductive Exit := CondFalse | TimedOut | Pending.

(** A record whose [link] is [None]. *)
Definition linkless (r : PostRecord) : bool :=
  match link r with None => true | Some _ => false end.

(** ** Content extraction (source lines 254-316) *)

(** Line 261, the comprehension over the images in DOM order.  The [in]
    test raises when the first read of [src] raises or returns [None].
    When the text read does not contain ["emoji.php"], the second read is
    kept as it comes. *)
Fixpoint extract_images (imgs : list Img) : option (list (option string)) :=
  match imgs with
  | [] => Some []
  | img :: rest =>
      match src_tested img with
      | Some (Some src) =>
          if negb (contains "emoji.php" src) then
            match src_kept img with
            | Some kept =>
                match extract_images rest with
                | Some others => Some (kept :: others)
                | None => None
                end
            | None => None
            end
          else extract_images rest
      | _ => None
      end
  end.

(** The filter of line 261 passes: the first read of [src] is a text
    without ["emoji.php"]. *)
Definition not_emoji (img : Img) : bool :=
  match src_tested img with
  | Some (Some src) => negb (contains "emoji.php" src)
  | _ => false
  end.

(** Line 265: the comprehension raises when an ancestor link is not found;
    the [href] itself is taken as it comes. *)
Fixpoint extract_videos (vs : list (option (option string)))
  : option (list (option string)) :=
  match vs with
  | [] => Some []
  | None :: _ => None
  | Some href :: rest =>
      match extract_videos rest with
      | None => None
      | Some hrefs => Some (href :: hrefs)
      end
  end.

Definition no_locals : Try.Locals :=
  {| Try.link := None; Try.post_date := None; Try.poster_name := None |}.

(** Lines 274-314, the body of the inner [try]. *)
Definition permalink_block (m : MetaObs) : Try.t unit :=
  (Try.call (span_found m) ;;
   Try.call (span_in_view m) ;;
   Try.call (hover_ok m) ;;
   Try.call (tooltip_found m) ;;
   Try.call (tooltip_filled m) ;;
   d <- Try.read (tooltip_text m) ;;
   Try.set_post_date (Some (strip d)) ;;
   Try.call (click_ok m) ;;
   Try.call (url_changed m) ;;
   Try.call (page_ready m) ;;
   u <- Try.read (current_url m) ;;
   Try.set_link (Some u) ;;
   Try.try_except
     (n <- Try.read (name_primary m) ;; Try.set_poster_name (Some n))
     (n <- Try.read (name_fallback m) ;; Try.set_poster_name (Some n)) ;;
   Try.call (went_back m))%try.

(** Lines 268-316: the three locals start at [None]; whatever the block
    raises is logged and dropped. *)
Definition permalink_locals (m : MetaObs) : Try.Locals :=
  Try.swallow (permalink_block m) no_locals.



(** Lines 255-268: the text, images and videos collected before the
    permalink block; [None] when one of these lines raises. *)
Definition collected (f : Fragment)
  : option (string * list (option string) * list (option string)) :=
  match story f with
  | None => None
  | Some body =>
      match img_elements f with
      | None => None
      | Some imgs =>
          match extract_images imgs with
          | None => None
          | Some images =>
              match video_elements f with
              | None => None
              | Some vs =>
                  match extract_videos vs with
                  | None => None
                  | Some videos =>
                      match old_url f with
                      | None => None
                      | Some _ => Some (strip body, images, videos)
                      end
                  end
              end
          end
      end
  end.

(** Lines 254-316 and the dictionary of line 334: [None] when the outer
    [try] is left by an exception before the gate. *)
Definition extract (kw : string) (f : Fragment) : option PostRecord :=
  match collected f with
  | None => None
  | Some (body, imgs, vids) =>
      let l := permalink_locals (meta f) in
      Some {| name := Try.poster_name l;
              text := body;
              link := Try.link l;
              date := Try.post_date l;
              images := imgs;
              videos := vids;
              keyword := kw |}
  end.

(** ** Whitelist file and gate (source lines 120-137, 234, 318-333) *)

(** [load_white_list]: the file is the list of its lines, [None] when
    [open] raises [FileNotFoundError]. *)
Definition load_white_list (file : option (list string)) : list string :=
  match file with
  | None => []
  | Some lines => filter truthy (map strip lines)
  end.

(** Line 234: [self.load_white_list() if self.white_list else []]. *)
Definition whitelist_entries_of (white_list : option string)
    (file : option (list string)) : list string :=
  if truthy_opt white_list then load_white_list file else [].

(** Lines 319-325. *)
Definition skip_post (whitelist_entries : list string) (l : option string) : bool :=
  match l with
  | Some url =>
      if truthy url then existsb (fun entry => contains entry url) whitelist_entries
      else false
  | None => false
  end.

(** Lines 326-331: [true] when the record goes on to line 333. *)
Definition passes_gate (whitelist_entries : list string)
    (crawled : list (option string)) (l : option string) : bool :=
  if skip_post whitelist_entries l then false
  else if mem l crawled then false
  else true.

(** ** The collection loop (source lines 229-363) *)

Section Collect.

Variable kw : string.
Variable max_posts : Z.
Variable whitelist_entries : list string.
(** [timeout], fixed at line 233. *)
Variable timeout : Q.

Definition len (crawled : list (option string)) : Z := Z.of_nat (List.length crawled).

(** One element of the [for] loop, lines 244-336: the record yielded, if
    any, and [url_crawled] afterwards. *)
Definition process (crawled : list (option string)) (f : Fragment)
  : option PostRecord * list (option string) :=
  match extract kw f with
  | None => (None, crawled)
  | Some r =>
      if passes_gate whitelist_entries crawled (link r)
      then (Some r, (crawled ++ [link r])%list)
      else (None, crawled)
  end.

(** The [for] loop of lines 240-336, with its [break] at line 242. *)
Fixpoint scan (elems : list Fragment) (crawled : list (option string))
  : list PostRecord * list (option string) :=
  match elems with
  | [] => ([], crawled)
  | f :: rest =>
      if (len crawled >=? max_posts)%Z then ([], crawled)
      else
        match process crawled f with
        | (Some r, crawled') =>
            let (out, final) := scan rest crawled' in (r :: out, final)
        | (None, crawled') => scan rest crawled'
        end
  end.

(** The condition polled by [wait.until] at lines 344-345. *)
Definition grew (c : Cycle) (poll : Z * nat) : bool :=
  (fst poll >? initial_height c)%Z || (initial_count c <? snd poll)%nat.

(** Lines 342-347: whether the wait ended on its condition ([true]) or on
    its timeout, which the bare [except] turns into a one-second sleep.
    Nothing later in the loop reads this outcome. *)
Definition wait_grew (c : Cycle) : bool := existsb (grew c) (polls c).

(** Lines 351-355. *)
Definition next_attempts (st : State) (c : Cycle) : nat :=
  if (new_height c =? last_height st)%Z then S (scroll_attempts st) else 0%nat.

(** Line 357: [time.time() > timeout]. *)
Definition timed_out (c : Cycle) : bool := negb (Qle_bool (now c) timeout).

(** Line 236. *)
Definition live (st : State) : bool :=
  (len (url_crawled st) <? max_posts)%Z && (scroll_attempts st <? 5)%nat.

(** The [while] loop of lines 236-361 over the observed cycles. *)
Fixpoint loop (st : State) (cycles : list Cycle)
  : list PostRecord * State * Exit :=
  if live st then
    match cycles with
    | [] => ([], st, Pending)
    | c :: rest =>
        let (out, crawled) := scan (elements c) (url_crawled st) in
        let attempts := next_attempts st c in
        if timed_out c then
          (out,
           {| url_crawled := crawled; last_height := last_height st;
              scroll_attempts := attempts |},
           TimedOut)
        else
          let '(out', st', e) :=
            loop {| url_crawled := crawled; last_height := new_height c;
                    scroll_attempts := attempts |} rest in
          ((out ++ out')%list, st', e)
    end
  else ([], st, CondFalse).

(** The yields of the loop as a relation on [url_crawled] before the first
    yield and the records yielded: each record is extracted from a fragment
    of [pool] while the cap is not reached and passes the gate against the
    links appended so far. *)
Inductive Yields (pool : Fragment -> Prop)
  : list (option string) -> list PostRecord -> Prop :=
| Yields_nil : forall crawled, Yields pool crawled []
| Yields_cons : forall crawled f r out,
    pool f ->
    (len crawled < max_posts)%Z ->
    extract kw f = Some r ->
    passes_gate whitelist_entries crawled (link r) = true ->
    Yields pool (crawled ++ [link r])%list out ->
    Yields pool crawled (r :: out).

(** The fragments the driver shows during the cycles [cs]. *)
Definition shown (cs : list Cycle) (f : Fragment) : Prop :=
  exists c, In c cs /\ In f (elements c).

End Collect.

(** What the scraper object holds and what the file system answers. *)
Record Session := {
  white_list : option string;             (* self.white_list *)
  white_list_file : option (list string)  (* lines of that file, if it opens *)
}.

(** Driver answers during one call of [scrape_posts]. *)
Record Crawl := {
  search_ok : bool;        (* 203-227: the search block did not raise *)
  first_height : Z;        (* 231 *)
  start_time : Q;          (* 233: time.time() *)
  cycles : list Cycle
}.

(** Line 233. *)
Definition deadline (max_posts : Z) (obs : Crawl) : Q :=
  (start_time obs + inject_Z (max_posts * 5))%Q.

(** Lines 230-232. *)
Definition initial_state (obs : Crawl) : State :=
  {| url_crawled := []; last_height := first_height obs; scroll_attempts := 0 |}.

(** Lines 229-363: everything after a successful search. *)
Definition collect (self : Session) (kw : string) (max_posts : Z) (obs : Crawl)
  : list PostRecord * State * Exit :=
  loop kw max_posts
       (whitelist_entries_of (white_list self) (white_list_file self))
       (deadline max_posts obs)
       (initial_state obs) (cycles obs).

(** [scrape_posts]: the records the generator yields, in order. *)
Definition scrape_posts (self : Session) (kw : string) (max_posts : Z)
    (obs : Crawl) : list PostRecord :=
  if search_ok obs then fst (fst (collect self kw max_posts obs)) else [].

(** Lines 414-416 of [main]: one call per keyword, the yields in sequence. *)
Definition run (self : Session) (max_posts : Z)
    (jobs : list (string * Crawl)) : list PostRecord :=
  flat_map (fun job => scrape_posts self (fst job) max_posts (snd job)) jobs.

End Scraper.

(** ** Concrete crawls *)

Module Examples.

Import Scraper.
Open Scope string_scope.

(** The block runs to its end. *)
Definition meta_ok (tooltip url author : string) : MetaObs :=
  {| span_found := true; span_in_view := true; hover_ok := true;
     tooltip_found := true; tooltip_filled := true;
     tooltip_text := Some tooltip;
     click_ok := true; url_changed := true; page_ready := true;
     current_url := Some url;
     name_primary := Some author; name_fallback := None;
     went_back := true |}.

(** The timestamp span is not in the fragment: line 274 raises. *)
Definition meta_no_span : MetaObs :=
  {| span_found := false; span_in_view := false; hover_ok := false;
     tooltip_found := false; tooltip_filled := false; tooltip_text := None;
     click_ok := false; url_changed := false; page_ready := false;
     current_url := None; name_primary := None; name_fallback := None;
     went_back := false |}.



(** The location of the results page, read at line 268. *)
Definition results_url : string :=
  "https://www.facebook.com/search/top?q=kw".

Definition post (body : string) (m : MetaObs) : Fragment :=
  {| story := Some body; img_elements := Some []; video_elements := Some [];
     old_url := Some results_url; meta := m |}.

(** An image whose two reads of [src] give the same answer. *)
Definition steady (src : option string) : Img :=
  {| src_tested := Some src; src_kept := Some src |}.

Definition media_post (body : string) (srcs : list (option string))
    (hrefs : list (option (option string))) (m : MetaObs) : Fragment :=
  {| story := Some body; img_elements := Some (map steady srcs);
     video_elements := Some hrefs; old_url := Some results_url; meta := m |}.

(** No story body: an ad placeholder. *)
Definition widget : Fragment :=
  {| story := None; img_elements := Some []; video_elements := Some [];
     old_url := Some results_url; meta := meta_no_span |}.

(** A cycle whose scroll changes the page height to [h]. *)
Definition cycle_at (elems : list Fragment) (h : Z) (t : Q) : Cycle :=
  {| elements := elems; initial_count := List.length elems;
     initial_height := h; polls := [(h, List.length elems)];
     new_height := h; now := t |}.

Definition crawl_of (cs : list Cycle) : Crawl :=
  {| search_ok := true; first_height := 1000; start_time := 0; cycles := cs |}.

Definition no_whitelist : Session :=
  {| white_list := None; white_list_file := None |}.

Definition newline : string := String (ascii_of_nat 10) "".

Definition with_whitelist : Session :=
  {| white_list := Some "white_list.txt";
     white_list_file := Some ["adtracker.example" ++ newline; newline;
                              "  spam.example " ++ newline] |}.

(** U+00A0 (no-break space) and U+3000 (ideographic space), encoded. *)
Definition nbsp : string :=
  String (ascii_of_nat 0xC2) (String (ascii_of_nat 0xA0) "").

Definition ideographic_space : string :=
  String (ascii_of_nat 0xE3)
    (String (ascii_of_nat 0x80) (String (ascii_of_nat 0x80) "")).

(** A whitelist file whose lines carry whitespace beyond ASCII. *)
Definition with_padded_whitelist : Session :=
  {| white_list := Some "white_list.txt";
     white_list_file := Some ["adtracker.example" ++ nbsp ++ newline;
                              nbsp ++ newline;
                              ideographic_space ++ "spam.example" ++ newline] |}.

Definition post_a : Fragment :=
  post " first post " (meta_ok "1 gio" "https://www.facebook.com/p/1" "An").

Definition post_b : Fragment :=
  post "second post" (meta_ok "2 gio" "https://www.facebook.com/p/2" "Binh").

Definition post_ad : Fragment :=
  post "buy now" (meta_ok "3 gio" "https://adtracker.example/post/1" "Ad").

Definition linkless_a : Fragment := post "no link a" meta_no_span.
Definition linkless_b : Fragment := post "no link b" meta_no_span.

(** One page of search results, scrolled once. *)
Definition mixed_crawl : Crawl :=
  crawl_of [cycle_at [post_a; widget; post_ad; post_b; post_a;
                      linkless_a; linkless_b] 1200 (3#1)].

Definition two_linkless_cycle : Cycle :=
  cycle_at [linkless_a; linkless_b] 1200 (1#1).

Definition two_linkless : Crawl := crawl_of [two_linkless_cycle].

(** The feed stops growing: the height stays at the 1000 read at line 231. *)
Definition stall : Cycle := cycle_at [post_a] 1000 (1#1).

Definition late_cycle : Cycle := cycle_at [post_b] 1300 (2#1).

(** One more fragment shows up after the scroll, the page height does not
    change. *)
Definition count_grows : Cycle :=
  {| elements := [post_a]; initial_count := 1; initial_height := 1000;
     polls := [(1000%Z, 1%nat); (1000%Z, 2%nat)]; new_height := 1000; now := 1#1 |}.

(** With [max_posts = 10] the deadline is 50; the second cycle ends at 60. *)
Definition slow_crawl : Crawl :=
  crawl_of [cycle_at [post_a] 1200 (1#1); cycle_at [post_b] 1300 (60#1);
            cycle_at [linkless_a] 1400 (61#1)].

(** Two keywords whose result pages show the same post. *)
Definition same_post_twice : list (string * Crawl) :=
  [("k1", crawl_of [cycle_at [post_a] 1200 (1#1)]);
   ("k2", crawl_of [cycle_at [post_a] 1300 (1#1)])].




(** An image without a source text, an emoji glyph, a photo; a video whose
    enclosing link has no [href], and one whose [href] is empty. *)
Definition clip_post : Fragment :=
  media_post "clip"
    [Some ""; Some "https://static.xx.fbcdn.net/images/emoji.php/v9/t4c/1/16/1f600.png";
     Some "https://scontent.xx.fbcdn.net/photo.jpg"]
    [Some None; Some (Some "")]
    (meta_ok "7 phut" "https://www.facebook.com/p/7" "Dung").

Definition clip_crawl : Crawl := crawl_of [cycle_at [clip_post] 1200 (1#1)].

(** Five cycles in a row in which the wait sees neither the height nor
    the fragment count grow, while the page gets shorter from one cycle
    to the next. *)
Definition shrinking : list Cycle :=
  [cycle_at [post_a] 900 (1#1); cycle_at [post_a] 800 (2#1);
   cycle_at [post_a] 700 (3#1); cycle_at [post_a] 600 (4#1);
   cycle_at [post_a] 500 (5#1)].

(** Five cycles in a row in which the wait sees the fragment count grow,
    the page height staying at 1000. *)
Definition growing_count : list Cycle :=
  [count_grows; count_grows; count_grows; count_grows; count_grows].

End Examples.

(** ** The caller: [main] (source lines 378-442) *)

Module Main.

Import PyStr Scraper.
Open Scope string_scope.

(** Lines 182-187 of [login]: what the method returns, from the location
    the driver reports after the refresh.  The cookies loaded before
    (lines 176-177, [load_cookies]) only act on the driver. *)
Definition login (url_after_refresh : string) : bool :=
  if contains "login" url_after_refresh then false else true.

(** Lines 408-409: [[line.strip() for line in file if line.strip()]]. *)
Definition load_keywords (lines : list string) : list string :=
  map strip (filter (fun line => truthy (strip line)) lines).

(** What [main] does that is visible from outside: the calls of
    [save_to_excel], its two log messages, and the call of
    [scraper.close()]. *)
Inductive Event :=
| Saved (batch : list PostRecord)      (* 419, 423 *)
| NoPosts (kw : string)                (* 426 *)
| LoginFailed                          (* 404 *)
| Closed.                              (* 442 *)

(** Truthiness of a list. *)
Definition nonempty {A} (l : list A) : bool :=
  match l with [] => false | _ => true end.

(** Lines 416-420: the [for post in posts] loop; the events and [batch]
    afterwards. *)
Fixpoint drain (batch_size : Z) (posts batch : list PostRecord)
  : list Event * list PostRecord :=
  match posts with
  | [] => ([], batch)
  | post :: rest =>
      let batch := (batch ++ [post])%list in
      if (Z.of_nat (List.length batch) >=? batch_size)%Z then
        let (events, final) := drain batch_size rest [] in
        (Saved batch :: events, final)
      else drain batch_size rest batch
  end.

(** Lines 415-426: one keyword. *)
Definition per_keyword (batch_size : Z) (kw : string)
    (posts batch : list PostRecord) : list Event * list PostRecord :=
  let (events, batch) := drain batch_size posts batch in
  if nonempty batch then ((events ++ [Saved batch])%list, [])
  else ((events ++ [NoPosts kw])%list, batch).

(** Lines 412-426: the loop over the keywords, each with the driver
    answers of its call of [scrape_posts]. *)
Fixpoint keyword_loop (self : Session) (max_posts batch_size : Z)
    (jobs : list (string * Crawl)) (batch : list PostRecord) : list Event :=
  match jobs with
  | [] => []
  | (kw, obs) :: rest =>
      let (events, batch) :=
        per_keyword batch_size kw (scrape_posts self kw max_posts obs) batch in
      (events ++ keyword_loop self max_posts batch_size rest batch)%list
  end.

(** What the outside answers during one run of [main]. *)
Record RunObs := {
  url_after_refresh : string;              (* 182: driver.current_url *)
  keywords_file : option (list string);    (* 408: lines of keywords.txt *)
  white_list_lines : option (list string); (* lines of white_list.txt *)
  crawl_of_call : nat -> Crawl             (* driver answers of the i-th call of scrape_posts *)
}.

(** The scraper object built at lines 392-399. *)
Definition scraper (r : RunObs) : Session :=
  {| white_list := Some "white_list.txt";
     white_list_file := white_list_lines r |}.

Definition jobs_of (r : RunObs) (keywords : list string) : list (string * Crawl) :=
  combine keywords (map (crawl_of_call r) (seq 0 (List.length keywords))).

(** [main]: the events in order, and whether an exception leaves it
    ([open] on a missing keywords.txt).  [save_to_excel] is taken to
    return. *)
Definition main (r : RunObs) : list Event * bool :=
  if login (url_after_refresh r) then
    match keywords_file r with
    | None => ([Closed], true)
    | Some lines =>
        ((keyword_loop (scraper r) 15 5 (jobs_of r (load_keywords lines)) []
          ++ [Closed])%list, false)
    end
  else ([LoginFailed; Closed], false).

(** The records handed to [save_to_excel], batch by batch. *)
Fixpoint saved_batches (events : list Event) : list (list PostRecord) :=
  match events with
  | [] => []
  | Saved batch :: rest => batch :: saved_batches rest
  | _ :: rest => saved_batches rest
  end.

End Main.

(** ** Browser options: [BrowserManager] (source lines 41-97) *)

Module Browser.

Import PyStr.
Open Scope string_scope.

(** Lines 50-55. *)
Definition user_agents : list string :=
  ["Mozilla/5.0 (Windows NT 10.0; Win64; x64) AppleWebKit/537.36 (KHTML, like Gecko) Chrome/96.0 Safari/537.36";
   "Mozilla/5.0 (Macintosh; Intel Mac OS X 10_15_7) AppleWebKit/537.36 (KHTML, like Gecko) Chrome/95.0 Safari/537.36";
   "Mozilla/5.0 (X11; Linux x86_64) AppleWebKit/537.36 (KHTML, like Gecko) Chrome/92.0 Safari/537.36";
   "Mozilla/5.0 (Windows NT 10.0; Win64; x64; rv:91.0) Gecko/20100101 Firefox/91.0"].

(** Line 56: [random.choice(user_agents)], with the index it draws. *)
Definition get_random_user_agent (draw : nat) : string :=
  nth draw user_agents "".

Inductive ProxyType := MANUAL.

Record Proxy := {
  proxy_type : ProxyType;
  http_proxy : string;
  ssl_proxy : string
}.

Record ChromeOptions := {
  arguments : list string;
  proxy : option Proxy
}.

(** Lines 70-92: the options handed to [webdriver.Chrome].
    [default_dir] is what [get_default_chrome_user_data_dir()] of [utils]
    returns. *)
Definition create_browser (default_dir : string) (draw : nat)
    (headless : bool) (proxy_arg user_data_dir profile_name : option string)
  : ChromeOptions :=
  {| arguments :=
       ((if headless then ["--headless"] else []) ++
        ["--disable-blink-features=AutomationControlled";
         "--mute-audio";
         "start-maximized";
         ("user-agent=" ++ get_random_user_agent draw)%string] ++
        (match profile_name with
         | Some profile =>
             if truthy profile then
               let dir :=
                 match user_data_dir with
                 | Some d => if truthy d then d else default_dir
                 | None => default_dir
                 end in
               [("user-data-dir=" ++ dir)%string;
                ("--profile-directory=" ++ profile)%string]
             else []
         | None => []
         end))%list;
     proxy :=
       match proxy_arg with
       | Some p =>
           if truthy p
           then Some {| proxy_type := MANUAL; http_proxy := p; ssl_proxy := p |}
           else None
       | None => None
       end |}.

End Browser.

(** ** Derived notions used to state properties of the loop *)

Module Derived.

Import PyStr Scraper.
Open Scope string_scope.

(** The fragment gets past line 265: a record is built for it. *)
Definition extractable (kw : string) (f : Fragment) : bool :=
  match extract kw f with Some _ => true | None => false end.

(** The cycle without the fragments no record is built for. *)
Definition prune (kw : string) (c : Cycle) : Cycle :=
  {| elements := filter (extractable kw) (elements c);
     initial_count := initial_count c;
     initial_height := initial_height c;
     polls := polls c;
     new_height := new_height c;
     now := now c |}.

(** The gate has nothing left to let through for this fragment. *)
Definition settled (kw : string) (wl : list string)
    (crawled : list (option string)) (f : Fragment) : Prop :=
  forall r, extract kw f = Some r -> passes_gate wl crawled (link r) = false.

(** A fragment whose second image has no [src]. *)
Definition broken_image_post : Fragment :=
  Examples.media_post "photo"
    [Some "https://scontent.xx.fbcdn.net/a.jpg"; None] []
    (Examples.meta_ok "8 phut" "https://www.facebook.com/p/8" "Em").

(** The second author selector answers, the first does not. *)
Definition fallback_author_post : Fragment :=
  Examples.post "reshared"
    {| span_found := true; span_in_view := true; hover_ok := true;
       tooltip_found := true; tooltip_filled := true;
       tooltip_text := Some " 9 phut ";
       click_ok := true; url_changed := true; page_ready := true;
       current_url := Some "https://www.facebook.com/p/9";
       name_primary := None; name_fallback := Some "Giang";
       went_back := true |}.

(** One run of [main]: two keywords and a blank line in keywords.txt. *)
Definition two_keyword_run : Main.RunObs :=
  {| Main.url_after_refresh := "https://www.facebook.com/";
     Main.keywords_file :=
       Some ["k1" ++ Examples.newline; Examples.newline; " k2 " ++ Examples.newline];
     Main.white_list_lines := None;
     Main.crawl_of_call := fun i =>
       match i with
       | O => Examples.mixed_crawl
       | _ => Examples.two_linkless
       end |}.

End Derived.

(** ** Proof automation *)

Import Scraper.

(** Run the block on the driver answers known so far. *)
Ltac run_block :=
  cbv [permalink_locals permalink_block no_locals
       Try.swallow Try.bind Try.ret Try.raise Try.call Try.read
       Try.set_post_date Try.set_link Try.set_poster_name Try.try_except
       Try.link Try.post_date Try.poster_name fst snd
       span_found span_in_view hover_ok tooltip_found tooltip_filled
       tooltip_text click_ok url_changed page_ready current_url
       name_primary name_fallback went_back].


(** * Facts *)

Module PyStrFacts.

Import PyStr.
Open Scope string_scope.

Lemma prefix_app : forall p s, String.prefix p s = true <-> exists t, s = p ++ t.
Proof.
  induction p as [|a p IH]; intros s.
  - destruct s; simpl; split; eauto.
  - destruct s as [|b s]; simpl.
    + split; [discriminate | intros [t Ht]; discriminate].
    + destruct (Ascii.ascii_dec a b) as [->|Hne].
      * rewrite IH. split; intros [t Ht]; exists t.
        -- now rewrite Ht.
        -- now injection Ht.
      * split; [discriminate|]. intros [t Ht]. injection Ht as E _. now elim Hne.
Qed.

Lemma contains_nil : forall needle,
  contains needle "" = String.prefix needle "" || false.
Proof. reflexivity. Qed.

Lemma contains_cons : forall needle c hay,
  contains needle (String c hay) =
  String.prefix needle (String c hay) || contains needle hay.
Proof. reflexivity. Qed.

(** [contains] decides the substring relation. *)
Lemma contains_spec : forall needle hay,
  contains needle hay = true <-> exists a b, hay = a ++ needle ++ b.
Proof.
  intros needle hay; revert needle.
  induction hay as [|c hay IH]; intros needle.
  - rewrite contains_nil, orb_false_r, prefix_app. split.
    + intros [t Ht]. exists "", t. exact Ht.
    + intros [a [b H]]. destruct a; simpl in H; [now exists b | discriminate].
  - rewrite contains_cons, orb_true_iff, prefix_app, IH. split.
    + intros [[t Ht] | [a [b H]]].
      * exists "", t. exact Ht.
      * exists (String c a), b. simpl. now rewrite H.
    + intros [a [b H]]. destruct a as [|c' a]; simpl in H.
      * left. now exists b.
      * right. injection H as _ H. now exists a, b.
Qed.

Lemma opt_eqb_eq : forall x y, opt_eqb x y = true <-> x = y.
Proof.
  intros [a|] [b|]; simpl; try (split; [discriminate | congruence]).
  - rewrite String.eqb_eq. split; congruence.
  - split; reflexivity.
Qed.

Lemma mem_In : forall x xs, mem x xs = true <-> In x xs.
Proof.
  intros x xs. unfold mem. rewrite existsb_exists. split.
  - intros [y [Hin He]]. apply opt_eqb_eq in He. now subst.
  - intros Hin. exists x. split; [assumption | now apply opt_eqb_eq].
Qed.

Lemma mem_false : forall x xs, mem x xs = false <-> ~ In x xs.
Proof.
  intros x xs. rewrite <- mem_In. destruct (mem x xs); split; congruence.
Qed.

Lemma truthy_nonempty : forall s, truthy s = true <-> s <> "".
Proof. intros [|c s]; simpl; split; congruence. Qed.

End PyStrFacts.

Module ScraperFacts.

Import PyStr PyStrFacts Scraper.
Open Scope string_scope.

(** ** The [for] loop and the [while] loop: what they keep invariant *)

Lemma passes_gate_true : forall whitelist_entries crawled l,
  passes_gate whitelist_entries crawled l = true <->
  skip_post whitelist_entries l = false /\ ~ In l crawled.
Proof.
  intros whitelist_entries crawled l. unfold passes_gate. rewrite <- mem_false.
  destruct (skip_post whitelist_entries l); destruct (mem l crawled);
    intuition congruence.
Qed.

Section CollectFacts.

Variable kw : string.
Variable max_posts : Z.
Variable whitelist_entries : list string.
Variable timeout : Q.

Let process := process kw whitelist_entries.
Let scan := scan kw max_posts whitelist_entries.
Let loop := loop kw max_posts whitelist_entries timeout.

Lemma process_yield : forall crawled f r crawled',
  process crawled f = (Some r, crawled') ->
  extract kw f = Some r /\
  passes_gate whitelist_entries crawled (link r) = true /\
  crawled' = (crawled ++ [link r])%list.
Proof.
  intros crawled f r crawled'. unfold process, Scraper.process.
  destruct (extract kw f) as [r0|]; [|discriminate].
  destruct (passes_gate whitelist_entries crawled (link r0)) eqn:Ha; [|discriminate].
  intros H. injection H as <- <-. auto.
Qed.

Lemma process_drop : forall crawled f crawled',
  process crawled f = (None, crawled') -> crawled' = crawled.
Proof.
  intros crawled f crawled'. unfold process, Scraper.process.
  destruct (extract kw f) as [r0|]; [|congruence].
  destruct (passes_gate whitelist_entries crawled (link r0)); congruence.
Qed.

Lemma Yields_mono : forall (P Q : Fragment -> Prop) crawled out,
  (forall f, P f -> Q f) ->
  Yields kw max_posts whitelist_entries P crawled out ->
  Yields kw max_posts whitelist_entries Q crawled out.
Proof.
  intros P Q crawled out HPQ H.
  induction H as [crawled | crawled f r out Hp Hlt He Ha _ IH].
  - constructor.
  - apply Yields_cons with f; auto.
Qed.

Lemma scan_yields : forall elems crawled,
  Yields kw max_posts whitelist_entries (fun f => In f elems)
         crawled (fst (scan elems crawled)).
Proof.
  induction elems as [|f rest IH]; intros crawled; simpl.
  - constructor.
  - destruct (Z.geb_spec (len crawled) max_posts) as [Hge|Hlt]; [constructor|].
    fold process. destruct (process crawled f) as [[r|] crawled'] eqn:Hp.
    + apply process_yield in Hp. destruct Hp as [He [Ha ->]].
      specialize (IH (crawled ++ [link r])%list). fold scan.
      destruct (scan rest (crawled ++ [link r])%list) as [out final]. simpl in *.
      apply Yields_cons with f; auto.
      apply Yields_mono with (2 := IH). now right.
    + apply process_drop in Hp. subst crawled'.
      apply Yields_mono with (2 := IH crawled). now right.
Qed.

Lemma scan_crawled : forall elems crawled,
  snd (scan elems crawled) = (crawled ++ map link (fst (scan elems crawled)))%list.
Proof.
  induction elems as [|f rest IH]; intros crawled; simpl.
  - now rewrite app_nil_r.
  - destruct (len crawled >=? max_posts)%Z; [simpl; now rewrite app_nil_r|].
    fold process. destruct (process crawled f) as [[r|] crawled'] eqn:Hp.
    + apply process_yield in Hp. destruct Hp as [_ [_ ->]].
      specialize (IH (crawled ++ [link r])%list). fold scan.
      destruct (scan rest (crawled ++ [link r])%list) as [out final]. simpl in *.
      now rewrite IH, <- app_assoc.
    + apply process_drop in Hp. subst crawled'. apply IH.
Qed.

Lemma Yields_app : forall pool crawled o1 o2,
  Yields kw max_posts whitelist_entries pool crawled o1 ->
  Yields kw max_posts whitelist_entries pool (crawled ++ map link o1)%list o2 ->
  Yields kw max_posts whitelist_entries pool crawled (o1 ++ o2)%list.
Proof.
  intros pool crawled o1 o2 H. revert o2.
  induction H as [crawled | crawled f r out Hp Hlt He Ha _ IH]; intros o2 H2; simpl in *.
  - now rewrite app_nil_r in H2.
  - apply Yields_cons with f; auto. apply IH. now rewrite <- app_assoc.
Qed.

Lemma loop_yields : forall cs st,
  Yields kw max_posts whitelist_entries (shown cs)
         (url_crawled st) (fst (fst (loop st cs))) /\
  url_crawled (snd (fst (loop st cs))) =
    (url_crawled st ++ map link (fst (fst (loop st cs))))%list.
Proof.
  induction cs as [|c rest IH]; intros st; simpl; destruct (live max_posts st); simpl;
    try (split; [constructor | now rewrite app_nil_r]).
  pose proof (scan_yields (elements c) (url_crawled st)) as Hy.
  pose proof (scan_crawled (elements c) (url_crawled st)) as Hc.
  fold scan. destruct (scan (elements c) (url_crawled st)) as [out crawled].
  simpl in Hy, Hc.
  assert (Hy' : Yields kw max_posts whitelist_entries (shown (c :: rest))
                       (url_crawled st) out).
  { apply Yields_mono with (2 := Hy). intros f Hf. exists c. split; [now left | exact Hf]. }
  destruct (timed_out timeout c); simpl; [now split|].
  match goal with |- context [loop ?s rest] =>
    specialize (IH s); destruct (loop s rest) as [[out' st'] e] end.
  simpl in *. destruct IH as [IHy IHc]. subst crawled. split.
  - apply Yields_app; [assumption|].
    apply Yields_mono with (2 := IHy).
    intros f [c' [Hc' Hf]]. exists c'. split; [now right | exact Hf].
  - now rewrite IHc, map_app, app_assoc.
Qed.

(** The cap: yields stop once [url_crawled] holds [max_posts] entries. *)
Lemma Yields_length : forall pool crawled out,
  Yields kw max_posts whitelist_entries pool crawled out ->
  (len crawled + Z.of_nat (List.length out) <= Z.max (len crawled) max_posts)%Z.
Proof.
  induction 1 as [crawled | crawled f r out Hp Hlt He Ha _ IH].
  - simpl. lia.
  - unfold len in *. rewrite length_app in IH. simpl in *. lia.
Qed.

(** No link, absent or not, enters [url_crawled] twice. *)
Lemma Yields_NoDup : forall pool crawled out,
  Yields kw max_posts whitelist_entries pool crawled out ->
  NoDup crawled -> NoDup (crawled ++ map link out)%list.
Proof.
  induction 1 as [crawled | crawled f r out Hp Hlt He Ha _ IH]; intros Hnd; simpl.
  - now rewrite app_nil_r.
  - apply passes_gate_true in Ha. destruct Ha as [_ Hnin].
    replace (crawled ++ link r :: map link out)%list
      with ((crawled ++ [link r]) ++ map link out)%list
      by now rewrite <- app_assoc.
    apply IH. apply NoDup_app; auto.
    + repeat constructor. intros [].
    + intros a Ha [<-|[]]. contradiction.
Qed.

(** Every yielded record was built by [extract] from a fragment of the
    pool and passed the whitelist test. *)
Lemma Yields_each : forall pool crawled out,
  Yields kw max_posts whitelist_entries pool crawled out ->
  Forall (fun r => (exists f, pool f /\ extract kw f = Some r) /\
                   skip_post whitelist_entries (link r) = false) out.
Proof.
  induction 1 as [crawled | crawled f r out Hp Hlt He Ha _ IH]; constructor; auto.
  apply passes_gate_true in Ha. split; [now exists f | tauto].
Qed.

End CollectFacts.

End ScraperFacts.

(** * The claims *)

Import PyStr PyStrFacts Scraper ScraperFacts.
Open Scope string_scope.

(** ** Cap on the number of records *)

Lemma collect_yields : forall self kw max_posts obs,
  Yields kw max_posts
    (whitelist_entries_of (white_list self) (white_list_file self))
    (shown (cycles obs))
    [] (fst (fst (collect self kw max_posts obs))) /\
  url_crawled (snd (fst (collect self kw max_posts obs))) =
    map link (fst (fst (collect self kw max_posts obs))).
Proof.
  intros self kw max_posts obs. unfold collect.
  exact (loop_yields kw max_posts _ _ (cycles obs) (initial_state obs)).
Qed.

Lemma scrape_posts_yields : forall self kw max_posts obs,
  Yields kw max_posts
    (whitelist_entries_of (white_list self) (white_list_file self))
    (shown (cycles obs))
    [] (scrape_posts self kw max_posts obs).
Proof.
  intros self kw max_posts obs. unfold scrape_posts.
  destruct (search_ok obs); [apply collect_yields | constructor].
Qed.

Lemma scan_break : forall kw max_posts wl elems crawled,
  (max_posts <= len crawled)%Z ->
  scan kw max_posts wl elems crawled = ([], crawled).
Proof.
  intros kw max_posts wl [|f rest] crawled Hge; simpl; [reflexivity|].
  destruct (Z.geb_spec (len crawled) max_posts); [reflexivity | lia].
Qed.

Lemma loop_cap_reached : forall kw max_posts wl timeout st cs,
  (max_posts <= len (url_crawled st))%Z ->
  loop kw max_posts wl timeout st cs = ([], st, CondFalse).
Proof.
  intros kw max_posts wl timeout st cs Hge.
  assert (Hl : live max_posts st = false).
  { unfold live. destruct (Z.ltb_spec (len (url_crawled st)) max_posts); [lia | reflexivity]. }
  destruct cs; simpl; now rewrite Hl.
Qed.

(** C1: a crawl with cap [max_posts = N] yields at most [N] records; the
    [while] loop is left as soon as [url_crawled] holds [N] entries, and
    the [for] loop over the visible fragments breaks at the same point. *)
Theorem C1_yields_at_most_max_posts :
  forall self kw (N : Z) obs,
    (0 <= N)%Z ->
    (Z.of_nat (List.length (scrape_posts self kw N obs)) <= N)%Z /\
    (forall wl timeout st cs,
        (N <= len (url_crawled st))%Z ->
        loop kw N wl timeout st cs = ([], st, CondFalse)) /\
    (forall wl elems crawled,
        (N <= len crawled)%Z ->
        scan kw N wl elems crawled = ([], crawled)).
Proof.
  intros self kw N obs HN. split; [|split].
  - pose proof (Yields_length _ _ _ _ _ _ (scrape_posts_yields self kw N obs)) as H.
    unfold len in H. simpl in H. lia.
  - intros. now apply loop_cap_reached.
  - intros. now apply scan_break.
Qed.

Lemma C1_witness :
  (0 <= 2)%Z /\
  (Z.of_nat (List.length
     (scrape_posts Examples.no_whitelist "kw" 2
        (Examples.crawl_of
           [Examples.cycle_at
              [Examples.post_a; Examples.post_ad; Examples.post_b] 1200 (3#1)])))
   <= 2)%Z.
Proof.
  split; [lia|].
  apply (C1_yields_at_most_max_posts Examples.no_whitelist "kw" 2
           (Examples.crawl_of
              [Examples.cycle_at
                 [Examples.post_a; Examples.post_ad; Examples.post_b] 1200 (3#1)])).
  lia.
Defined.

(** ** Links of one keyword crawl *)

Lemma scrape_posts_links_NoDup : forall self kw max_posts obs,
  NoDup (map link (scrape_posts self kw max_posts obs)).
Proof.
  intros self kw max_posts obs.
  apply (Yields_NoDup _ _ _ _ _ _ (scrape_posts_yields self kw max_posts obs)).
  constructor.
Qed.

Lemma process_duplicate : forall kw wl crawled f r,
  extract kw f = Some r -> In (link r) crawled ->
  process kw wl crawled f = (None, crawled).
Proof.
  intros kw wl crawled f r He Hin. unfold process. rewrite He.
  destruct (passes_gate wl crawled (link r)) eqn:Ha; [|reflexivity].
  apply passes_gate_true in Ha. tauto.
Qed.

(** C2: within one keyword crawl the non-empty links of the yielded records
    are pairwise distinct, a record whose link is already in [url_crawled]
    is dropped without touching [url_crawled], and [url_crawled] starts
    empty at every call, so two keywords of one run can yield the same
    link. *)
Theorem C2_links_distinct_within_keyword :
  forall self kw N obs,
    NoDup (filter truthy_opt (map link (scrape_posts self kw N obs))) /\
    (forall wl crawled f r,
        extract kw f = Some r -> In (link r) crawled ->
        process kw wl crawled f = (None, crawled)) /\
    url_crawled (initial_state obs) = [] /\
    map link (run Examples.no_whitelist 10 Examples.same_post_twice) =
      [Some "https://www.facebook.com/p/1"; Some "https://www.facebook.com/p/1"].
Proof.
  intros self kw N obs. repeat split.
  - apply NoDup_filter, scrape_posts_links_NoDup.
  - intros. now apply process_duplicate with r.
Qed.

Lemma C2_witness :
  process "kw" [] [Some "https://www.facebook.com/p/1"] Examples.post_a =
    (None, [Some "https://www.facebook.com/p/1"]).
Proof.
  refine (proj1 (proj2 (C2_links_distinct_within_keyword
                          Examples.no_whitelist "kw" 10 Examples.mixed_crawl))
            [] [Some "https://www.facebook.com/p/1"] Examples.post_a _ _ _).
  - reflexivity.
  - simpl. left. reflexivity.
Defined.

(** ** Whitelisted sources *)

Lemma skip_post_false : forall wl url entry,
  skip_post wl (Some url) = false -> url <> "" -> In entry wl ->
  contains entry url = false.
Proof.
  intros wl url entry Hs Hne Hin. unfold skip_post in Hs.
  apply truthy_nonempty in Hne. rewrite Hne in Hs.
  destruct (contains entry url) eqn:Hc; [|reflexivity].
  assert (existsb (fun e => contains e url) wl = true)
    by (apply existsb_exists; now exists entry).
  congruence.
Qed.

Lemma skip_post_true : forall wl url entry,
  url <> "" -> In entry wl -> contains entry url = true ->
  skip_post wl (Some url) = true.
Proof.
  intros wl url entry Hne Hin Hc. unfold skip_post.
  apply truthy_nonempty in Hne. rewrite Hne.
  apply existsb_exists. now exists entry.
Qed.

(** C3: no yielded record has a non-empty link that contains an entry of
    the whitelist file as a substring; a fragment whose link contains one
    is dropped with [url_crawled] unchanged. *)
Theorem C3_whitelisted_links_never_yielded :
  forall self kw N obs url entry,
    url <> "" ->
    In entry (whitelist_entries_of (white_list self) (white_list_file self)) ->
    (exists a b, url = a ++ entry ++ b) ->
    (forall r, In r (scrape_posts self kw N obs) -> link r <> Some url) /\
    (forall crawled f r,
        extract kw f = Some r -> link r = Some url ->
        process kw
          (whitelist_entries_of (white_list self) (white_list_file self))
          crawled f = (None, crawled)).
Proof.
  intros self kw N obs url entry Hne Hin Hsub.
  apply contains_spec in Hsub. split.
  - intros r Hr Hl.
    pose proof (Yields_each _ _ _ _ _ _ (scrape_posts_yields self kw N obs)) as Hall.
    rewrite Forall_forall in Hall. destruct (Hall r Hr) as [_ Hs].
    rewrite Hl in Hs. pose proof (skip_post_false _ _ _ Hs Hne Hin). congruence.
  - intros crawled f r He Hl. unfold process. rewrite He.
    unfold passes_gate. rewrite Hl.
    now rewrite (skip_post_true _ _ _ Hne Hin Hsub).
Qed.

Lemma C3_witness :
  (forall r, In r (scrape_posts Examples.with_padded_whitelist "kw" 10
                                Examples.mixed_crawl) ->
             link r <> Some "https://adtracker.example/post/1") /\
  process "kw"
    (whitelist_entries_of (white_list Examples.with_padded_whitelist)
                          (white_list_file Examples.with_padded_whitelist))
    [] Examples.post_ad = (None, []).
Proof.
  assert (H := C3_whitelisted_links_never_yielded
                 Examples.with_padded_whitelist "kw" 10 Examples.mixed_crawl
                 "https://adtracker.example/post/1" "adtracker.example").
  destruct H as [H1 H2].
  - discriminate.
  - vm_compute. left. reflexivity.
  - exists "https://", "/post/1". reflexivity.
  - split; [exact H1|].
    refine (H2 [] Examples.post_ad _ _ _); reflexivity.
Defined.

(** ** Records without a link *)

Lemma NoDup_at_most_one_None : forall ls : list (option string),
  NoDup ls -> (List.length (filter (opt_eqb None) ls) <= 1)%nat.
Proof.
  induction 1 as [|x ls Hnin Hnd IH]; simpl; [lia|].
  destruct x as [s|]; simpl; [exact IH|].
  assert (Hz : filter (opt_eqb None) ls = []).
  { destruct (filter (opt_eqb None) ls) as [|y ys] eqn:Hf; [reflexivity|].
    assert (Hy : In y (filter (opt_eqb None) ls)) by (rewrite Hf; now left).
    apply filter_In in Hy. destruct Hy as [Hy He].
    apply opt_eqb_eq in He. subst y. contradiction. }
  rewrite Hz. simpl. lia.
Qed.

Lemma linkless_filter : forall out,
  List.length (filter linkless out) =
  List.length (filter (opt_eqb None) (map link out)).
Proof.
  induction out as [|r out IH]; simpl; [reflexivity|].
  unfold linkless at 1. destruct (link r); simpl; now rewrite IH.
Qed.

Lemma process_linkless : forall kw wl crawled f r,
  extract kw f = Some r -> link r = None ->
  (~ In None crawled ->
     process kw wl crawled f = (Some r, (crawled ++ [None])%list)) /\
  (In None crawled -> process kw wl crawled f = (None, crawled)).
Proof.
  intros kw wl crawled f r He Hl. unfold process. rewrite He, Hl.
  unfold passes_gate. simpl. destruct (mem None crawled) eqn:Hm.
  - apply mem_In in Hm. tauto.
  - apply mem_false in Hm. tauto.
Qed.

(** C4, as the spec states it, fails: of two fragments extracted without a
    link in one keyword crawl, the second is not yielded. *)
Lemma C4_second_linkless_record_rejected :
  exists r,
    In Examples.linkless_b (elements Examples.two_linkless_cycle) /\
    extract "kw" Examples.linkless_b = Some r /\
    link r = None /\
    ~ In r (scrape_posts Examples.no_whitelist "kw" 10 Examples.two_linkless).
Proof.
  eexists. split; [simpl; right; left; reflexivity|].
  split; [reflexivity|]. split; [reflexivity|].
  vm_compute. intros [H|[]]. discriminate H.
Qed.

(** C4, amended: a record whose link is absent always passes the whitelist
    test; it passes the duplicate test, is yielded and has [None] appended
    to [url_crawled] exactly when [url_crawled] does not hold [None] yet,
    and is dropped otherwise. *)
Theorem C4_linkless_record_passes_once :
  forall kw wl crawled f r,
    extract kw f = Some r -> link r = None ->
    skip_post wl (link r) = false /\
    (~ In None crawled ->
       process kw wl crawled f = (Some r, (crawled ++ [None])%list)) /\
    (In None crawled -> process kw wl crawled f = (None, crawled)).
Proof.
  intros kw wl crawled f r He Hl. split.
  - now rewrite Hl.
  - now apply process_linkless.
Qed.

Lemma C4_witness :
  process "kw" ["adtracker.example"] [Some "https://www.facebook.com/p/1"]
          Examples.linkless_a
  = (Some {| name := None; text := "no link a"; link := None; date := None;
             images := []; videos := []; keyword := "kw" |},
     [Some "https://www.facebook.com/p/1"; None]) /\
  process "kw" ["adtracker.example"] [None] Examples.linkless_b = (None, [None]).
Proof.
  split.
  - refine (proj1 (proj2 (C4_linkless_record_passes_once
              "kw" ["adtracker.example"] [Some "https://www.facebook.com/p/1"]
              Examples.linkless_a _ _ _)) _); try reflexivity.
    simpl. intros [H|[]]. discriminate H.
  - refine (proj2 (proj2 (C4_linkless_record_passes_once
              "kw" ["adtracker.example"] [None]
              Examples.linkless_b _ _ _)) _); try reflexivity.
    simpl. left. reflexivity.
Defined.

(** C10: a keyword crawl yields at most one record without a link.  The
    absent link is appended to [url_crawled] like any other, so a later
    record without a link is dropped as a duplicate, and the entries of
    [url_crawled], the one for the absent link included, are what the cap
    counts. *)
Theorem C10_at_most_one_linkless_record :
  forall self kw N obs,
    (List.length (filter linkless (scrape_posts self kw N obs)) <= 1)%nat /\
    (forall wl crawled f r,
        extract kw f = Some r -> link r = None -> In None crawled ->
        process kw wl crawled f = (None, crawled)) /\
    url_crawled (snd (fst (collect self kw N obs))) =
      map link (fst (fst (collect self kw N obs))) /\
    (Z.of_nat (List.length (filter linkless (scrape_posts self kw N obs))) +
     Z.of_nat (List.length (filter (fun r => negb (linkless r))
                                   (scrape_posts self kw N obs)))
     <= Z.max 0 N)%Z.
Proof.
  intros self kw N obs. split; [|split; [|split]].
  - rewrite linkless_filter.
    apply NoDup_at_most_one_None, scrape_posts_links_NoDup.
  - intros wl crawled f r He Hl Hin.
    now apply (process_linkless kw wl crawled f r He Hl).
  - apply collect_yields.
  - pose proof (Yields_length _ _ _ _ _ _ (scrape_posts_yields self kw N obs)) as H.
    pose proof (filter_length linkless (scrape_posts self kw N obs)) as Hf.
    unfold len in H. simpl in H. lia.
Qed.

Lemma C10_witness :
  process "kw" [] [None] Examples.linkless_b = (None, [None]).
Proof.
  refine (proj1 (proj2 (C10_at_most_one_linkless_record
                          Examples.no_whitelist "kw" 10 Examples.two_linkless))
            [] [None] Examples.linkless_b _ _ _ _); try reflexivity.
  simpl. left. reflexivity.
Defined.

(** ** Leaving the loop: stalls and the deadline *)

Section LoopExits.

Variable kw : string.
Variable max_posts : Z.
Variable wl : list string.
Variable timeout : Q.

Local Abbreviation loop := (loop kw max_posts wl timeout).
Local Abbreviation scan := (scan kw max_posts wl).

Lemma loop_dead : forall st cs,
  live max_posts st = false -> loop st cs = ([], st, CondFalse).
Proof. intros st [|c cs] H; simpl; now rewrite H. Qed.

Lemma loop_nil_live : forall st,
  live max_posts st = true -> loop st [] = ([], st, Pending).
Proof. intros st H; simpl; now rewrite H. Qed.

Lemma loop_cons : forall st c rest,
  live max_posts st = true ->
  loop st (c :: rest) =
    let batch := scan (elements c) (url_crawled st) in
    if timed_out timeout c then
      (fst batch,
       {| url_crawled := snd batch; last_height := last_height st;
          scroll_attempts := next_attempts st c |},
       TimedOut)
    else
      let '(out', st', e) :=
        loop {| url_crawled := snd batch; last_height := new_height c;
                scroll_attempts := next_attempts st c |} rest in
      ((fst batch ++ out')%list, st', e).
Proof.
  intros st c rest H. simpl. rewrite H.
  now destruct (Scraper.scan kw max_posts wl (elements c) (url_crawled st)).
Qed.

Lemma live_attempts : forall st,
  (5 <= scroll_attempts st)%nat -> live max_posts st = false.
Proof.
  intros st H. unfold live.
  destruct (Nat.ltb_spec (scroll_attempts st) 5); [lia|].
  apply andb_false_r.
Qed.

(** A pending run is a prefix of every longer run. *)
Lemma loop_pending_app : forall pre st out st' more,
  loop st pre = (out, st', Pending) ->
  loop st (pre ++ more)%list =
    let '(out2, st2, e) := loop st' more in ((out ++ out2)%list, st2, e).
Proof.
  induction pre as [|c pre IH]; intros st out st' more H.
  - destruct (live max_posts st) eqn:Hl.
    + rewrite loop_nil_live in H by assumption. injection H as <- <-.
      simpl app. now destruct (loop st more) as [[o s] e].
    + rewrite loop_dead in H by assumption. discriminate.
  - destruct (live max_posts st) eqn:Hl.
    + simpl app. rewrite loop_cons in H |- * by assumption. cbv zeta in *.
      destruct (timed_out timeout c); [discriminate|].
      match type of H with context [loop ?s pre] =>
        destruct (loop s pre) as [[o1 s1] e1] eqn:Hp end.
      injection H as <- <- ->.
      rewrite (IH _ _ _ more Hp).
      destruct (loop s1 more) as [[o2 s2] e2]. now rewrite app_assoc.
    + rewrite loop_dead in H by assumption. discriminate.
Qed.

(** Once the stalls on record add up to five, the loop does not read
    another cycle. *)
Lemma loop_stalls : forall stalls st rest,
  Forall (fun c => new_height c = last_height st) stalls ->
  (5 <= scroll_attempts st + List.length stalls)%nat ->
  loop st (stalls ++ rest)%list = loop st stalls /\
  snd (loop st stalls) <> Pending.
Proof.
  induction stalls as [|c stalls IH]; intros st rest Hall Hlen.
  - simpl in Hlen. rewrite !loop_dead by (apply live_attempts; lia).
    split; [reflexivity | discriminate].
  - destruct (live max_posts st) eqn:Hl.
    + simpl app. rewrite !loop_cons by assumption. cbv zeta.
      destruct (timed_out timeout c); [split; [reflexivity | discriminate]|].
      inversion Hall as [|c0 l0 Hc Hrest]; subst.
      match goal with |- context [loop ?s stalls] =>
        destruct (IH s rest) as [IH1 IH2] end.
      * simpl. now rewrite Hc.
      * unfold next_attempts. simpl. rewrite Hc, Z.eqb_refl. simpl in Hlen. lia.
      * rewrite IH1.
        match goal with |- context [loop ?s stalls] =>
          destruct (loop s stalls) as [[o s1] e] end.
        split; [reflexivity | exact IH2].
    + rewrite !loop_dead by assumption. split; [reflexivity | discriminate].
Qed.

Lemma last_cons_default : forall (h : Z) hs d, last (h :: hs) d = last hs h.
Proof.
  intros h hs. revert h. induction hs as [|x hs IH]; intros h d; [reflexivity|].
  change (last (h :: x :: hs) d) with (last (x :: hs) d).
  rewrite (IH x d). symmetry. exact (IH x h).
Qed.

(** Where the counter stands when the loop is left: it counts the cycles
    of a block of consecutive stalls, which either starts the run or
    follows the cycles [pre]. *)
Lemma loop_attempts : forall cs st out st' e,
  loop st cs = (out, st', e) ->
  (exists stalls post,
      cs = (stalls ++ post)%list /\
      Forall (fun c => new_height c = last_height st) stalls /\
      scroll_attempts st' = (scroll_attempts st + List.length stalls)%nat) \/
  (exists pre stalls post,
      cs = (pre ++ stalls ++ post)%list /\
      Forall (fun c => new_height c = last (map new_height pre) (last_height st))
             stalls /\
      scroll_attempts st' = List.length stalls).
Proof.
  induction cs as [|c cs IH]; intros st out st' e H.
  - left. exists [], []. simpl in H.
    destruct (live max_posts st); injection H as _ <- _;
      repeat split; auto; simpl; lia.
  - destruct (live max_posts st) eqn:Hl.
    2:{ rewrite loop_dead in H by assumption. injection H as _ <- _.
        left. exists [], (c :: cs). repeat split; auto; simpl; lia. }
    rewrite loop_cons in H by assumption. cbv zeta in H.
    unfold next_attempts in H.
    destruct (Z.eqb_spec (new_height c) (last_height st)) as [Hs|Hg].
    + (* the cycle is a stall *)
      destruct (timed_out timeout c).
      * injection H as _ <- _. left. exists [c], cs.
        repeat split; auto; simpl; lia.
      * match type of H with context [loop ?s cs] =>
          destruct (loop s cs) as [[o1 s1] e1] eqn:Hp end.
        injection H as _ <- _.
        destruct (IH _ _ _ _ Hp) as [[stalls [post [-> [Hall Hn]]]]
                                    | [pre [stalls [post [-> [Hall Hn]]]]]];
          simpl in Hall, Hn.
        -- left. exists (c :: stalls), post. repeat split; auto.
           ++ constructor; [assumption|]. now rewrite <- Hs.
           ++ simpl. lia.
        -- right. exists (c :: pre), stalls, post. repeat split; auto.
           simpl map. now rewrite last_cons_default.
    + (* the height changed *)
      destruct (timed_out timeout c).
      * injection H as _ <- _. right. exists [c], [], cs.
        repeat split; auto.
      * match type of H with context [loop ?s cs] =>
          destruct (loop s cs) as [[o1 s1] e1] eqn:Hp end.
        injection H as _ <- _.
        destruct (IH _ _ _ _ Hp) as [[stalls [post [-> [Hall Hn]]]]
                                    | [pre [stalls [post [-> [Hall Hn]]]]]];
          simpl in Hall, Hn.
        -- right. exists [c], stalls, post. repeat split; auto.
        -- right. exists (c :: pre), stalls, post. repeat split; auto.
           simpl map. now rewrite last_cons_default.
Qed.

End LoopExits.

Lemma loop_pending_live : forall kw N wl timeout pre st out st',
  loop kw N wl timeout st pre = (out, st', Pending) -> live N st' = true.
Proof.
  intros kw N wl timeout.
  induction pre as [|c pre IH]; intros st out st' H;
    destruct (live N st) eqn:Hl;
    try (rewrite loop_dead in H by assumption; discriminate).
  - rewrite loop_nil_live in H by assumption. now injection H as _ <-.
  - rewrite loop_cons in H by assumption. cbv zeta in H.
    destruct (timed_out timeout c); [discriminate|].
    match type of H with context [loop _ _ _ _ ?s pre] =>
      destruct (loop kw N wl timeout s pre) as [[o1 s1] e1] eqn:Hp end.
    injection H as _ <- ->. exact (IH _ _ _ Hp).
Qed.

Lemma timed_out_lt : forall timeout c,
  (timeout < now c)%Q -> timed_out timeout c = true.
Proof.
  intros timeout c H. unfold timed_out.
  destruct (Qle_bool (now c) timeout) eqn:Hle; [|reflexivity].
  apply Qle_bool_iff in Hle. exfalso. exact (Qlt_not_le _ _ H Hle).
Qed.

(** C5, as the spec states it, fails both ways.  After five cycles in a
    row whose scroll step saw no growth the crawl goes on (the height
    differs from the one kept each time, the counter is back at 0, and a
    sixth cycle yields a record); and the counter reaches 5, ending the
    crawl after one record, over five cycles whose scroll step saw the
    fragment count grow every time. *)
Lemma C5_growth_seen_by_the_wait_is_not_counted :
  Forall (fun c => wait_grew c = false) Examples.shrinking /\
  snd (loop "kw" 10 [] (50#1) (initial_state (Examples.crawl_of []))
            Examples.shrinking) = Pending /\
  scroll_attempts
    (snd (fst (loop "kw" 10 [] (50#1) (initial_state (Examples.crawl_of []))
                    Examples.shrinking))) = 0%nat /\
  map text
    (fst (fst (loop "kw" 10 [] (50#1) (initial_state (Examples.crawl_of []))
                    (Examples.shrinking ++ [Examples.late_cycle])%list))) =
    ["first post"; "second post"] /\
  Forall (fun c => wait_grew c = true) Examples.growing_count /\
  snd (loop "kw" 10 [] (50#1) (initial_state (Examples.crawl_of []))
            Examples.growing_count) = CondFalse /\
  scroll_attempts
    (snd (fst (loop "kw" 10 [] (50#1) (initial_state (Examples.crawl_of []))
                    Examples.growing_count))) = 5%nat /\
  map text
    (fst (fst (loop "kw" 10 [] (50#1) (initial_state (Examples.crawl_of []))
                    Examples.growing_count))) = ["first post"].
Proof.
  split; [repeat constructor|]. split; [reflexivity|]. split; [reflexivity|].
  split; [vm_compute; reflexivity|]. split; [repeat constructor|].
  split; [reflexivity|]. split; [reflexivity | vm_compute; reflexivity].
Qed.

(** C5, amended: five scroll cycles in a row that leave the page height
    where it was (the test of line 351, whatever the wait of lines
    344-345 saw) end the crawl, whatever the number of records collected:
    no cycle after them is run.  And the counter stands at [k] only after
    [k] consecutive such cycles, so it reaches 5 only after five of
    them. *)
Theorem C5_five_stalls_end_the_crawl :
  forall kw N wl timeout st,
    (forall stalls rest,
        List.length stalls = 5%nat ->
        Forall (fun c => new_height c = last_height st) stalls ->
        loop kw N wl timeout st (stalls ++ rest)%list =
          loop kw N wl timeout st stalls /\
        snd (loop kw N wl timeout st stalls) <> Pending) /\
    (forall cs out st' e,
        scroll_attempts st = 0%nat ->
        loop kw N wl timeout st cs = (out, st', e) ->
        exists pre stalls post,
          cs = (pre ++ stalls ++ post)%list /\
          List.length stalls = scroll_attempts st' /\
          Forall (fun c => new_height c =
                           last (map new_height pre) (last_height st)) stalls).
Proof.
  intros kw N wl timeout st. split.
  - intros stalls rest Hlen Hall. apply loop_stalls; [assumption | lia].
  - intros cs out st' e H0 H.
    destruct (loop_attempts _ _ _ _ _ _ _ _ _ H)
      as [[stalls [post [-> [Hall Hn]]]] | [pre [stalls [post [-> [Hall Hn]]]]]].
    + exists [], stalls, post. repeat split; auto. lia.
    + exists pre, stalls, post. repeat split; auto.
Qed.

Lemma C5_witness :
  loop "kw" 10 [] (50#1) (initial_state (Examples.crawl_of []))
       ([Examples.stall; Examples.stall; Examples.stall; Examples.stall;
         Examples.stall] ++ [Examples.late_cycle])%list =
  loop "kw" 10 [] (50#1) (initial_state (Examples.crawl_of []))
       [Examples.stall; Examples.stall; Examples.stall; Examples.stall;
        Examples.stall].
Proof.
  refine (proj1 (proj1 (C5_five_stalls_end_the_crawl
            "kw" 10 [] (50#1) (initial_state (Examples.crawl_of [])))
            [Examples.stall; Examples.stall; Examples.stall; Examples.stall;
             Examples.stall] [Examples.late_cycle] _ _)).
  - reflexivity.
  - repeat constructor.
Defined.

(** C6: the deadline is fixed at [start_time + max_posts * 5] when the
    collection starts; the guard at the end of every cycle compares the
    clock with it whatever [scroll_attempts] and the heights are, and the
    first cycle that ends after the deadline is the last one: its records
    are the last yielded, and no later cycle is run. *)
Theorem C6_deadline_ends_the_crawl :
  forall self kw N obs pre c post out st,
    cycles obs = (pre ++ c :: post)%list ->
    loop kw N (whitelist_entries_of (white_list self) (white_list_file self))
         (deadline N obs) (initial_state obs) pre = (out, st, Pending) ->
    (deadline N obs < now c)%Q ->
    deadline N obs = (start_time obs + inject_Z (N * 5))%Q /\
    collect self kw N obs =
      let batch :=
        scan kw N (whitelist_entries_of (white_list self) (white_list_file self))
             (elements c) (url_crawled st) in
      ((out ++ fst batch)%list,
       {| url_crawled := snd batch; last_height := last_height st;
          scroll_attempts := next_attempts st c |},
       TimedOut).
Proof.
  intros self kw N obs pre c post out st Hcs Hpre Hlate.
  split; [reflexivity|].
  unfold collect. rewrite Hcs.
  rewrite (loop_pending_app _ _ _ _ _ _ _ _ (c :: post) Hpre).
  rewrite loop_cons by (exact (loop_pending_live _ _ _ _ _ _ _ _ Hpre)).
  cbv zeta. now rewrite (timed_out_lt _ _ Hlate).
Qed.

Lemma C6_witness :
  map text (fst (fst (collect Examples.no_whitelist "kw" 10 Examples.slow_crawl)))
    = ["first post"; "second post"] /\
  snd (collect Examples.no_whitelist "kw" 10 Examples.slow_crawl) = TimedOut.
Proof.
  destruct (C6_deadline_ends_the_crawl Examples.no_whitelist "kw" 10
              Examples.slow_crawl
              [Examples.cycle_at [Examples.post_a] 1200 (1#1)]
              (Examples.cycle_at [Examples.post_b] 1300 (60#1))
              [Examples.cycle_at [Examples.linkless_a] 1400 (61#1)]
              [{| name := Some "An"; text := "first post";
                  link := Some "https://www.facebook.com/p/1";
                  date := Some "1 gio"; images := []; videos := [];
                  keyword := "kw" |}]
              {| url_crawled := [Some "https://www.facebook.com/p/1"];
                 last_height := 1200; scroll_attempts := 0 |})
    as [_ H].
  - reflexivity.
  - vm_compute. reflexivity.
  - vm_compute. reflexivity.
  - rewrite H. split; vm_compute; reflexivity.
Defined.

(** C7, as the spec states it, fails: the scroll step sees the fragment
    count grow, the page height is unchanged, and the counter goes from 2
    to 3 instead of back to 0. *)
Lemma C7_fragment_growth_does_not_reset :
  wait_grew Examples.count_grows = true /\
  (exists poll, In poll (polls Examples.count_grows) /\
                (initial_count Examples.count_grows < snd poll)%nat) /\
  scroll_attempts
    (snd (fst (loop "kw" 10 [] (50#1)
                 {| url_crawled := []; last_height := 1000; scroll_attempts := 2 |}
                 [Examples.count_grows]))) = 3%nat.
Proof.
  split; [reflexivity|]. split; [|reflexivity].
  exists (1000%Z, 2%nat). split; [simpl; right; left; reflexivity | simpl; lia].
Qed.

(** C7, amended: after a scroll cycle the counter is zero when the page
    height read at line 348 differs from the height kept from the cycle
    before, whether it grew or shrank, and one more than before when the
    two are equal; the fragment counts and the heights polled by the wait
    play no part. *)
Theorem C7_counter_follows_page_height :
  forall kw N wl timeout st c,
    live N st = true ->
    (new_height c <> last_height st ->
       scroll_attempts (snd (fst (loop kw N wl timeout st [c]))) = 0%nat) /\
    (new_height c = last_height st ->
       scroll_attempts (snd (fst (loop kw N wl timeout st [c]))) =
         S (scroll_attempts st)) /\
    (forall n h ps,
        loop kw N wl timeout st
          [{| elements := elements c; initial_count := n; initial_height := h;
              polls := ps; new_height := new_height c; now := now c |}] =
        loop kw N wl timeout st [c]).
Proof.
  intros kw N wl timeout st c Hl.
  assert (Hn : scroll_attempts (snd (fst (loop kw N wl timeout st [c]))) =
               next_attempts st c).
  { rewrite loop_cons by assumption. cbv zeta.
    destruct (timed_out timeout c); [reflexivity|].
    match goal with |- context [loop _ _ _ _ ?s []] =>
      destruct (live N s) eqn:Hs;
      [rewrite (loop_nil_live _ _ _ _ s Hs) | rewrite (loop_dead _ _ _ _ s [] Hs)]
    end; reflexivity. }
  rewrite Hn. unfold next_attempts. split; [|split].
  - intros Hne. now destruct (Z.eqb_spec (new_height c) (last_height st)).
  - intros ->. now rewrite Z.eqb_refl.
  - intros n h ps. now rewrite !loop_cons by assumption.
Qed.

Lemma C7_witness :
  scroll_attempts
    (snd (fst (loop "kw" 10 [] (50#1)
                 {| url_crawled := []; last_height := 1000; scroll_attempts := 2 |}
                 [Examples.late_cycle]))) = 0%nat.
Proof.
  refine (proj1 (C7_counter_follows_page_height "kw" 10 [] (50#1)
            {| url_crawled := []; last_height := 1000; scroll_attempts := 2 |}
            Examples.late_cycle _) _).
  - reflexivity.
  - discriminate.
Defined.

(** ** Partial extraction *)






Lemma extract_inv : forall kw f r,
  extract kw f = Some r ->
  exists body,
    story f = Some body /\
    r = {| name := Try.poster_name (permalink_locals (meta f));
           text := strip body;
           link := Try.link (permalink_locals (meta f));
           date := Try.post_date (permalink_locals (meta f));
           images := images r; videos := videos r; keyword := kw |}.
Proof.
  intros kw f r. unfold extract, collected.
  destruct (story f) as [body|]; [|discriminate].
  destruct (img_elements f) as [imgs|]; [|discriminate].
  destruct (extract_images imgs); [|discriminate].
  destruct (video_elements f) as [vs|]; [|discriminate].
  destruct (extract_videos vs); [|discriminate].
  destruct (old_url f); [|discriminate].
  intros H. injection H as <-. now exists body.
Qed.




(** ** Media lists *)

Lemma extract_images_kept : forall imgs out,
  extract_images imgs = Some out ->
  Forall (fun img => exists src, src_tested img = Some (Some src)) imgs /\
  map Some out = map src_kept (filter not_emoji imgs).
Proof.
  induction imgs as [|img imgs IH]; intros out H; simpl in H.
  - injection H as <-. split; [constructor | reflexivity].
  - change (filter not_emoji (img :: imgs))
      with (if not_emoji img then img :: filter not_emoji imgs
            else filter not_emoji imgs).
    unfold not_emoji at 1.
    destruct (src_tested img) as [[src|]|] eqn:Ht; try discriminate.
    destruct (negb (contains "emoji.php" src)).
    + destruct (src_kept img) as [kept|] eqn:Hk; [|discriminate].
      destruct (extract_images imgs) as [others|]; [|discriminate].
      injection H as <-. destruct (IH others eq_refl) as [Hall Hm].
      split; [constructor; [now exists src | assumption]|].
      simpl. now rewrite Hk, Hm.
    + destruct (IH out H) as [Hall Hm].
      split; [constructor; [now exists src | assumption] | assumption].
Qed.

Lemma extract_videos_all : forall vs vids,
  extract_videos vs = Some vids -> vs = map Some vids.
Proof.
  induction vs as [|[href|] vs IH]; intros vids H; simpl in H.
  - now injection H as <-.
  - destruct (extract_videos vs) as [rest|]; [|discriminate].
    injection H as <-. simpl. now rewrite (IH rest eq_refl).
  - discriminate.
Qed.

Lemma extract_media : forall kw f r,
  extract kw f = Some r ->
  exists imgs vs,
    img_elements f = Some imgs /\ extract_images imgs = Some (images r) /\
    video_elements f = Some vs /\ extract_videos vs = Some (videos r).
Proof.
  intros kw f r. unfold extract, collected.
  destruct (story f); [|discriminate].
  destruct (img_elements f) as [imgs|]; [|discriminate].
  destruct (extract_images imgs) eqn:Hi; [|discriminate].
  destruct (video_elements f) as [vs|]; [|discriminate].
  destruct (extract_videos vs) eqn:Hv; [|discriminate].
  destruct (old_url f); [|discriminate].
  intros H. injection H as <-. simpl. exists imgs, vs. auto.
Qed.

(** C9, as the spec states it, fails: the yielded record has an empty
    string among its images, and a null and an empty string among its
    videos. *)
Lemma C9_null_and_empty_media_entries :
  exists r,
    In r (scrape_posts Examples.no_whitelist "kw" 10 Examples.clip_crawl) /\
    In (Some "") (images r) /\ In None (videos r) /\ In (Some "") (videos r).
Proof.
  eexists. split; [vm_compute; left; reflexivity|].
  simpl. repeat split; auto.
Qed.

(** C9, amended: every yielded record comes from a fragment shown during
    the crawl whose images all answer the filter's read of [src] with a
    text.  [images] holds, in DOM order, for each image whose text read by
    the filter does not contain ["emoji.php"], what the second read of
    [src] returns; when the two reads agree it holds no null entry and no
    text containing ["emoji.php"].  [videos] is the list of the [href]
    values of the links around the fragment's videos, in DOM order, each
    as the driver returned it.  Empty image sources and null or empty
    [href] values are not removed. *)
Theorem C9_media_lists_as_collected :
  forall self kw N obs r,
    In r (scrape_posts self kw N obs) ->
    exists f imgs,
      shown (cycles obs) f /\
      img_elements f = Some imgs /\
      Forall (fun img => exists src, src_tested img = Some (Some src)) imgs /\
      map Some (images r) = map src_kept (filter not_emoji imgs) /\
      video_elements f = Some (map Some (videos r)) /\
      (Forall (fun img => src_kept img = src_tested img) imgs ->
       forall entry, In entry (images r) ->
         exists src, entry = Some src /\
                     ~ exists a b, src = a ++ "emoji.php" ++ b).
Proof.
  intros self kw N obs r Hr.
  pose proof (Yields_each _ _ _ _ _ _ (scrape_posts_yields self kw N obs)) as Hall.
  rewrite Forall_forall in Hall. destruct (Hall r Hr) as [[f [Hf He]] _].
  destruct (extract_media _ _ _ He) as [imgs [vs [Hi [Hei [Hv Hev]]]]].
  destruct (extract_images_kept _ _ Hei) as [Htext Hkept].
  exists f, imgs. split; [assumption|]. split; [assumption|].
  split; [assumption|]. split; [assumption|].
  split; [now rewrite Hv, (extract_videos_all _ _ Hev)|].
  intros Hsame entry Hin.
  assert (Hin' : In (Some entry) (map src_kept (filter not_emoji imgs)))
    by (rewrite <- Hkept; now apply in_map).
  apply in_map_iff in Hin'. destruct Hin' as [img [Hk Himg]].
  apply filter_In in Himg. destruct Himg as [Himg Hne].
  rewrite Forall_forall in Hsame. rewrite (Hsame img Himg) in Hk.
  unfold not_emoji in Hne. rewrite Hk in Hne.
  destruct entry as [src|]; [|discriminate].
  exists src. split; [reflexivity|]. intros Hsub.
  apply contains_spec in Hsub. rewrite Hsub in Hne. discriminate.
Qed.

Lemma C9_witness :
  exists f imgs,
    shown (cycles Examples.clip_crawl) f /\
    img_elements f = Some imgs /\
    map Some [Some ""; Some "https://scontent.xx.fbcdn.net/photo.jpg"] =
      map src_kept (filter not_emoji imgs) /\
    video_elements f = Some (map Some [None; Some ""]).
Proof.
  destruct (C9_media_lists_as_collected Examples.no_whitelist "kw" 10
              Examples.clip_crawl
              {| name := Some "Dung"; text := "clip";
                 link := Some "https://www.facebook.com/p/7";
                 date := Some "7 phut";
                 images := [Some ""; Some "https://scontent.xx.fbcdn.net/photo.jpg"];
                 videos := [None; Some ""]; keyword := "kw" |})
    as [f [imgs [H1 [H2 [_ [H3 [H4 _]]]]]]].
  - vm_compute. left. reflexivity.
  - exists f, imgs. simpl in H3, H4. auto.
Defined.

(** * Beyond the claims *)

(** ** [strip] removes the surrounding whitespace, and only that *)

Lemma append_assoc : forall a b c : string, (a ++ b) ++ c = a ++ b ++ c.
Proof.
  induction a as [|x a IH]; intros b c; simpl; [reflexivity | now rewrite IH].
Qed.

Lemma append_nil_r : forall a : string, a ++ "" = a.
Proof. induction a as [|x a IH]; simpl; [reflexivity | now rewrite IH]. Qed.

Lemma append_length : forall a b : string,
  String.length (a ++ b) = (String.length a + String.length b)%nat.
Proof.
  induction a as [|x a IH]; intros b; simpl; [reflexivity | now rewrite IH].
Qed.

Lemma lstrip_eq : forall s,
  lstrip s = match skip_space s with Some r => lstrip r | None => s end.
Proof.
  intros [|a [|b [|c s3]]]; simpl; try reflexivity;
    destruct (is_space a); try reflexivity;
    destruct (two_byte_space a b); try reflexivity;
    destruct (three_byte_space a b c); reflexivity.
Qed.

Lemma skip_space_shorter : forall s r,
  skip_space s = Some r -> (String.length r < String.length s)%nat.
Proof.
  intros [|a [|b [|c s3]]] r; simpl; try discriminate;
    destruct (is_space a); try discriminate;
    try (intros H; injection H as <-; simpl; lia);
    destruct (two_byte_space a b); try discriminate;
    try (intros H; injection H as <-; simpl; lia);
    destruct (three_byte_space a b c); try discriminate;
    intros H; injection H as <-; simpl; lia.
Qed.

Lemma skip_space_app : forall s r w,
  skip_space s = Some r -> skip_space (s ++ w) = Some (r ++ w).
Proof.
  intros [|a [|b [|c s3]]] r w; simpl; try discriminate;
    destruct (is_space a); try discriminate;
    try (intros H; now injection H as <-);
    destruct (two_byte_space a b); try discriminate;
    try (intros H; now injection H as <-);
    destruct (three_byte_space a b c); try discriminate;
    intros H; now injection H as <-.
Qed.

(** Induction along the characters [lstrip] removes. *)
Lemma skip_space_ind : forall P : string -> Prop,
  (forall s, (forall r, skip_space s = Some r -> P r) -> P s) ->
  forall s, P s.
Proof.
  intros P step s.
  assert (H : forall n s, (String.length s <= n)%nat -> P s).
  { induction n as [|n IH]; intros s0 Hlen; apply step; intros r Hr;
      apply skip_space_shorter in Hr; [lia | apply IH; lia]. }
  now apply H with (String.length s).
Qed.

Lemma lstrip_stops : forall s, skip_space (lstrip s) = None.
Proof.
  apply skip_space_ind. intros s IH. rewrite lstrip_eq.
  destruct (skip_space s) as [r|] eqn:Hs; [now apply IH | exact Hs].
Qed.

Lemma lstrip_fixed : forall s, skip_space s = None -> lstrip s = s.
Proof. intros s H. now rewrite lstrip_eq, H. Qed.

Lemma blank_app : forall x w, lstrip x = "" -> lstrip (x ++ w) = lstrip w.
Proof.
  intros x w. revert x. apply (skip_space_ind (fun x => lstrip x = "" -> _)).
  intros x IH Hx. rewrite lstrip_eq in Hx.
  destruct (skip_space x) as [r|] eqn:Hs.
  - rewrite (lstrip_eq (x ++ w)), (skip_space_app _ _ w Hs). now apply IH.
  - now subst x.
Qed.

Lemma is_blank_true : forall s, is_blank s = true <-> lstrip s = "".
Proof.
  intros s. unfold is_blank. destruct (lstrip s); split; congruence.
Qed.

Lemma rstrip_cons : forall c s,
  rstrip (String c s) =
  if is_blank (String c s) then "" else String c (rstrip s).
Proof. reflexivity. Qed.

Lemma rstrip_split : forall s,
  exists trail, s = rstrip s ++ trail /\ lstrip trail = "".
Proof.
  induction s as [|c s IH]; [now exists ""|].
  rewrite rstrip_cons. destruct (is_blank (String c s)) eqn:Hb.
  - exists (String c s). split; [reflexivity | now apply is_blank_true].
  - destruct IH as [trail [Hs Ht]]. exists trail.
    split; [simpl; now rewrite <- Hs | assumption].
Qed.

Lemma rstrip_idem : forall s, rstrip (rstrip s) = rstrip s.
Proof.
  induction s as [|c s IH]; [reflexivity|].
  rewrite rstrip_cons. destruct (is_blank (String c s)) eqn:Hb; [reflexivity|].
  rewrite rstrip_cons, IH.
  destruct (is_blank (String c (rstrip s))) eqn:Hb'; [|reflexivity].
  exfalso. apply is_blank_true in Hb'.
  destruct (rstrip_split s) as [trail [Hs Ht]].
  assert (Hall : lstrip (String c s) = "").
  { rewrite Hs. change (String c (rstrip s ++ trail))
      with (String c (rstrip s) ++ trail).
    now rewrite blank_app. }
  apply is_blank_true in Hall. congruence.
Qed.

Lemma rstrip_keeps_start : forall s,
  skip_space s = None -> skip_space (rstrip s) = None.
Proof.
  intros s Hs. destruct (rstrip_split s) as [trail [Hsplit _]].
  destruct (skip_space (rstrip s)) as [r|] eqn:Hr; [|reflexivity].
  apply (skip_space_app _ _ trail) in Hr. rewrite <- Hsplit in Hr. congruence.
Qed.

Lemma rstrip_cuts_blank : forall front w,
  lstrip w = "" ->
  (String.length (rstrip (front ++ w)) <= String.length front)%nat.
Proof.
  induction front as [|c front IH]; intros w Hw.
  - simpl. destruct w as [|x w]; [simpl; lia|].
    rewrite rstrip_cons. apply is_blank_true in Hw. rewrite Hw. simpl. lia.
  - change (String c front ++ w) with (String c (front ++ w)).
    rewrite rstrip_cons. destruct (is_blank (String c (front ++ w))).
    + simpl. lia.
    + simpl. specialize (IH w Hw). lia.
Qed.

Lemma strip_idem : forall s, strip (strip s) = strip s.
Proof.
  intros s. unfold strip.
  rewrite (lstrip_fixed (rstrip (lstrip s)))
    by apply rstrip_keeps_start, lstrip_stops.
  apply rstrip_idem.
Qed.

(** Every listed encoding is recognised. *)
Lemma whitespace_skipped : forall w rest,
  In w whitespace -> skip_space (w ++ rest) = Some rest.
Proof.
  intros w rest H. unfold whitespace in H. simpl in H.
  repeat (destruct H as [<-|H]; [reflexivity|]). contradiction.
Qed.

Lemma byte_eq : forall a n, byte a = n -> a = ascii_of_nat n.
Proof.
  intros a n H. unfold byte in H. rewrite <- H.
  symmetry. apply ascii_nat_embedding.
Qed.

Ltac listed :=
  solve [unfold whitespace; simpl; repeat (first [left; reflexivity | right])].

(** Turn the tests on bytes into facts about them. *)
Ltac crack :=
  repeat match goal with
         | H : (_ && _)%bool = true |- _ => apply andb_prop in H; destruct H
         | H : (_ || _)%bool = true |- _ => apply orb_prop in H; destruct H
         | H : (byte _ =? _)%nat = true |- _ =>
             apply Nat.eqb_eq, byte_eq in H; subst
         | H : (_ <=? _)%nat = true |- _ => apply Nat.leb_le in H
         end.

Lemma byte_between : forall c lo hi,
  (lo <= byte c)%nat -> (byte c <= hi)%nat ->
  In c (map ascii_of_nat (seq lo (S hi - lo))).
Proof.
  intros c lo hi Hlo Hhi. apply in_map_iff. exists (byte c).
  split; [symmetry; now apply byte_eq | apply in_seq; lia].
Qed.

(** Nothing else is recognised. *)
Lemma skip_space_whitespace : forall s rest,
  skip_space s = Some rest -> exists w, In w whitespace /\ s = w ++ rest.
Proof.
  intros [|a s1] rest; simpl; [discriminate|].
  destruct (is_space a) eqn:Ha.
  { intros H. injection H as <-. exists (String a ""). split; [|reflexivity].
    unfold is_space in Ha. fold (byte a) in Ha. cbv zeta in Ha. crack.
    - pose proof (byte_between a 9 13 ltac:(assumption) ltac:(assumption)) as Hin.
      simpl in Hin. repeat (destruct Hin as [<-|Hin]; [listed|]). contradiction.
    - pose proof (byte_between a 28 32 ltac:(assumption) ltac:(assumption)) as Hin.
      simpl in Hin. repeat (destruct Hin as [<-|Hin]; [listed|]). contradiction. }
  destruct s1 as [|b s2]; [discriminate|].
  destruct (two_byte_space a b) eqn:Hab.
  { intros H. injection H as <-. exists (String a (String b "")).
    split; [|reflexivity]. unfold two_byte_space in Hab. crack; listed. }
  destruct s2 as [|c s3]; [discriminate|].
  destruct (three_byte_space a b c) eqn:Habc; [|discriminate].
  intros H. injection H as <-. exists (String a (String b (String c ""))).
  split; [|reflexivity]. unfold three_byte_space in Habc. crack; try listed.
  pose proof (byte_between c 128 138 ltac:(assumption) ltac:(assumption)) as Hin.
  simpl in Hin. repeat (destruct Hin as [<-|Hin]; [listed|]). contradiction.
Qed.

Lemma lstrip_split : forall s,
  exists lead, s = lead ++ lstrip s /\ Blank lead.
Proof.
  apply skip_space_ind. intros s IH. rewrite lstrip_eq.
  destruct (skip_space s) as [r|] eqn:Hs.
  - destruct (skip_space_whitespace _ _ Hs) as [w [Hw ->]].
    destruct (IH r eq_refl) as [lead [Hr Hlead]].
    exists (w ++ lead). split; [|now constructor].
    rewrite append_assoc. now rewrite <- Hr.
  - exists "". split; [reflexivity | constructor].
Qed.

Lemma blank_of_lstrip : forall s, lstrip s = "" -> Blank s.
Proof.
  intros s H. destruct (lstrip_split s) as [lead [Hs Hlead]].
  rewrite H, append_nil_r in Hs. now subst.
Qed.

Lemma lstrip_of_blank : forall s, Blank s -> lstrip s = "".
Proof.
  induction 1 as [|w s Hw _ IH]; [reflexivity|].
  now rewrite lstrip_eq, (whitespace_skipped _ _ Hw).
Qed.

(** What [strip] does: it cuts a run of whitespace characters off each
    end, and what is left neither starts nor ends with a whitespace
    character. *)
Lemma strip_spec : forall s,
  (exists lead trail,
      s = lead ++ strip s ++ trail /\ Blank lead /\ Blank trail) /\
  (forall w rest, In w whitespace -> strip s <> w ++ rest) /\
  (forall w front, In w whitespace -> strip s <> front ++ w).
Proof.
  intros s. split; [|split].
  - destruct (lstrip_split s) as [lead [Hs Hlead]].
    destruct (rstrip_split (lstrip s)) as [trail [Ht Htrail]].
    exists lead, trail. split; [|split; [assumption | now apply blank_of_lstrip]].
    unfold strip. now rewrite <- Ht.
  - intros w rest Hw H.
    assert (Hn : skip_space (strip s) = None)
      by apply rstrip_keeps_start, lstrip_stops.
    rewrite H, (whitespace_skipped _ _ Hw) in Hn. discriminate.
  - intros w front Hw H.
    assert (Hb : lstrip w = "").
    { rewrite <- (append_nil_r w). rewrite lstrip_eq.
      now rewrite (whitespace_skipped _ _ Hw). }
    assert (Hlen : (0 < String.length w)%nat).
    { unfold whitespace in Hw. simpl in Hw.
      repeat (destruct Hw as [<-|Hw]; [simpl; lia|]). contradiction. }
    pose proof (rstrip_cuts_blank front w Hb) as Hcut.
    assert (Hfix : rstrip (strip s) = strip s) by apply rstrip_idem.
    rewrite H in Hfix. rewrite Hfix, append_length in Hcut. lia.
Qed.

(** ** The whitelist file and the keyword file *)

(** X1: every entry [load_white_list] returns is a line of the file with
    the whitespace characters at its two ends removed, and nothing else:
    it is not empty, it neither starts nor ends with a whitespace
    character, and stripping it again changes nothing.  A blank line
    therefore never becomes an entry (an empty entry would be a substring
    of every link). *)
Theorem X1_whitelist_entries_are_trimmed_lines :
  forall file entry,
    In entry (load_white_list file) ->
    (exists lines line lead trail,
        file = Some lines /\ In line lines /\ entry = strip line /\
        line = lead ++ entry ++ trail /\ Blank lead /\ Blank trail) /\
    entry <> "" /\
    strip entry = entry /\
    (forall w rest, In w whitespace -> entry <> w ++ rest) /\
    (forall w front, In w whitespace -> entry <> front ++ w).
Proof.
  intros [lines|] entry Hin; simpl in Hin; [|contradiction].
  apply filter_In in Hin. destruct Hin as [Hin Ht].
  apply in_map_iff in Hin. destruct Hin as [line [<- Hline]].
  destruct (strip_spec line) as [[lead [trail [Hs [Hl Htr]]]] [H1 H2]].
  split; [now exists lines, line, lead, trail|].
  split; [now apply truthy_nonempty|].
  split; [apply strip_idem | split; assumption].
Qed.

Lemma X1_witness :
  load_white_list (white_list_file Examples.with_padded_whitelist) =
    ["adtracker.example"; "spam.example"] /\
  "spam.example" <> "" /\ strip "spam.example" = "spam.example".
Proof.
  split; [vm_compute; reflexivity|].
  destruct (X1_whitelist_entries_are_trimmed_lines
              (white_list_file Examples.with_padded_whitelist) "spam.example")
    as [_ [H1 [H2 _]]].
  - vm_compute. right. left. reflexivity.
  - split; assumption.
Defined.

(** X2: [main] reads the keyword file the way [load_white_list] reads the
    whitelist file: the keywords are the non-blank lines, stripped, in file
    order, so no keyword handed to [scrape_posts] is empty, or starts or
    ends with a whitespace character. *)
Theorem X2_keywords_are_trimmed_lines :
  forall lines,
    Main.load_keywords lines = load_white_list (Some lines) /\
    Forall (fun kw =>
              kw <> "" /\ strip kw = kw /\
              (forall w rest, In w whitespace -> kw <> w ++ rest) /\
              (forall w front, In w whitespace -> kw <> front ++ w))
           (Main.load_keywords lines) /\
    (List.length (Main.load_keywords lines) <= List.length lines)%nat.
Proof.
  intros lines.
  assert (He : Main.load_keywords lines = load_white_list (Some lines)).
  { unfold Main.load_keywords. simpl. now rewrite filter_map_swap. }
  split; [exact He|]. split.
  - rewrite He. apply Forall_forall. intros kw Hin.
    simpl in Hin. apply filter_In in Hin. destruct Hin as [Hin Ht].
    apply in_map_iff in Hin. destruct Hin as [line [<- _]].
    destruct (strip_spec line) as [_ [H1 H2]].
    split; [now apply truthy_nonempty|].
    split; [apply strip_idem | split; assumption].
  - unfold Main.load_keywords. rewrite length_map. apply filter_length_le.
Qed.

(** ** Fragments that give no record *)

Lemma extract_images_none : forall imgs,
  extract_images imgs = None <->
  exists img,
    In img imgs /\
    ((forall src, src_tested img <> Some (Some src)) \/
     (not_emoji img = true /\ src_kept img = None)).
Proof.
  induction imgs as [|img imgs IH]; simpl.
  - split; [discriminate | intros [img [[] _]]].
  - split.
    + intros H. destruct (src_tested img) as [[src|]|] eqn:Ht.
      * destruct (negb (contains "emoji.php" src)) eqn:Hn.
        -- destruct (src_kept img) as [kept|] eqn:Hk.
           ++ destruct (extract_images imgs) as [others|]; [discriminate|].
              destruct (proj1 IH eq_refl) as [img' [Hin Hc]].
              exists img'. split; [now right | assumption].
           ++ exists img. split; [now left|]. right.
              unfold not_emoji. rewrite Ht. auto.
        -- destruct (proj1 IH H) as [img' [Hin Hc]].
           exists img'. split; [now right | assumption].
      * exists img. split; [now left|]. left. intros src. congruence.
      * exists img. split; [now left|]. left. intros src. congruence.
    + intros [img' [[<-|Hin] Hc]].
      * destruct Hc as [Hc|[Hn Hk]].
        -- destruct (src_tested img) as [[src|]|]; try reflexivity.
           now elim (Hc src).
        -- unfold not_emoji in Hn.
           destruct (src_tested img) as [[src|]|]; try reflexivity.
           now rewrite Hn, Hk.
      * assert (Hr : extract_images imgs = None)
          by (apply IH; now exists img').
        rewrite Hr. destruct (src_tested img) as [[src|]|]; try reflexivity.
        destruct (negb (contains "emoji.php" src)); [|reflexivity].
        now destruct (src_kept img).
Qed.

Lemma extract_videos_none : forall vs,
  extract_videos vs = None <-> In None vs.
Proof.
  induction vs as [|[href|] vs IH]; simpl.
  - split; [discriminate | contradiction].
  - destruct (extract_videos vs) as [hrefs|].
    + split; [discriminate|]. intros [H|H]; [discriminate|].
      apply IH in H. discriminate.
    + split; [intros _; right; now apply IH | reflexivity].
  - split; [now left | reflexivity].
Qed.

Lemma process_unextractable : forall kw wl crawled f,
  extract kw f = None -> process kw wl crawled f = (None, crawled).
Proof. intros kw wl crawled f H. unfold process. now rewrite H. Qed.

(** X3: a fragment gives no record exactly when one of lines 255-268
    raises: the story body is not found; the list of images cannot be
    read; for one of the images the filter's read of [src] raises or
    returns no text, or the filter passes and the second read raises; the
    list of videos cannot be read; the link around one of the videos, or
    its [href], cannot be read; or the location cannot be read.  Such a
    fragment is passed over with [url_crawled] unchanged, whatever its
    permalink block would have answered. *)
Theorem X3_fragments_without_record :
  forall kw f,
    (extract kw f = None <->
     story f = None \/
     img_elements f = None \/
     (exists imgs img,
         img_elements f = Some imgs /\ In img imgs /\
         ((forall src, src_tested img <> Some (Some src)) \/
          (not_emoji img = true /\ src_kept img = None))) \/
     video_elements f = None \/
     (exists vs, video_elements f = Some vs /\ In None vs) \/
     old_url f = None) /\
    (forall wl crawled,
        extract kw f = None -> process kw wl crawled f = (None, crawled)).
Proof.
  intros kw f. split; [|intros; now apply process_unextractable].
  unfold extract, collected. destruct (story f) as [body|].
  2:{ split; [now left | reflexivity]. }
  destruct (img_elements f) as [imgs|].
  2:{ split; [now right; left | reflexivity]. }
  destruct (extract_images imgs) as [kept|] eqn:Hi.
  2:{ apply extract_images_none in Hi. destruct Hi as [img [Hin Hc]].
      split; [|reflexivity]. intros _. right. right. left. now exists imgs, img. }
  destruct (video_elements f) as [vs|].
  2:{ split; [now right; right; right; left | reflexivity]. }
  destruct (extract_videos vs) as [hrefs|] eqn:Hv.
  2:{ apply extract_videos_none in Hv.
      split; [|reflexivity]. intros _. right. right. right. right. left.
      now exists vs. }
  destruct (old_url f) as [url|].
  2:{ split; [now repeat right | reflexivity]. }
  split; [discriminate|].
  intros [H|[H|[[imgs' [img [H1 [H2 H3]]]]|[H|[[vs' [H1 H2]]|H]]]]];
    try discriminate.
  - injection H1 as <-.
    assert (extract_images imgs = None)
      by (apply extract_images_none; now exists img).
    congruence.
  - injection H1 as <-. apply extract_videos_none in H2. congruence.
Qed.

Lemma X3_witness :
  process "kw" [] [] Derived.broken_image_post = (None, []).
Proof.
  refine (proj2 (X3_fragments_without_record "kw" Derived.broken_image_post)
            [] [] _).
  apply (proj1 (X3_fragments_without_record "kw" Derived.broken_image_post)).
  right. right. left.
  exists [Examples.steady (Some "https://scontent.xx.fbcdn.net/a.jpg");
          Examples.steady None], (Examples.steady None).
  split; [reflexivity|]. split; [simpl; right; left; reflexivity|].
  left. intros src. discriminate.
Defined.

Lemma scan_prune : forall kw N wl elems crawled,
  scan kw N wl (filter (Derived.extractable kw) elems) crawled =
  scan kw N wl elems crawled.
Proof.
  intros kw N wl. induction elems as [|f rest IH]; intros crawled; [reflexivity|].
  destruct (Z.leb_spec N (len crawled)) as [Hcap|Hlt].
  { now rewrite !scan_break by assumption. }
  simpl filter. unfold Derived.extractable at 1.
  destruct (extract kw f) as [r|] eqn:He.
  - simpl. destruct (len crawled >=? N)%Z; [reflexivity|].
    destruct (process kw wl crawled f) as [[r'|] crawled']; now rewrite IH.
  - rewrite IH. simpl.
    destruct (Z.geb_spec (len crawled) N) as [Hge|_]; [lia|].
    now rewrite process_unextractable.
Qed.

(** X4: the fragments no record is built for (ad placeholders, widgets)
    are invisible to the crawl: leaving them out of every cycle changes
    neither the records yielded, nor the final state, nor the way the loop
    is left. *)
Theorem X4_unextractable_fragments_are_invisible :
  forall kw N wl timeout cs st,
    loop kw N wl timeout st (map (Derived.prune kw) cs) =
    loop kw N wl timeout st cs.
Proof.
  intros kw N wl timeout. induction cs as [|c cs IH]; intros st; [reflexivity|].
  destruct (live N st) eqn:Hl.
  - simpl map. rewrite !loop_cons by assumption. cbv zeta.
    change (elements (Derived.prune kw c))
      with (filter (Derived.extractable kw) (elements c)).
    rewrite scan_prune.
    change (timed_out timeout (Derived.prune kw c)) with (timed_out timeout c).
    change (next_attempts st (Derived.prune kw c)) with (next_attempts st c).
    change (new_height (Derived.prune kw c)) with (new_height c).
    now rewrite IH.
  - now rewrite !loop_dead by assumption.
Qed.

(** ** Scanning the same fragments again *)

Lemma passes_gate_grows : forall wl crawled more l,
  passes_gate wl crawled l = false ->
  passes_gate wl (crawled ++ more)%list l = false.
Proof.
  intros wl crawled more l. unfold passes_gate.
  destruct (skip_post wl l); [reflexivity|].
  destruct (mem l crawled) eqn:Hm; [|discriminate]. intros _.
  apply mem_In in Hm.
  assert (Hm' : mem l (crawled ++ more)%list = true)
    by (apply mem_In, in_or_app; now left).
  now rewrite Hm'.
Qed.

Lemma scan_settled : forall kw N wl elems crawled,
  Forall (Derived.settled kw wl crawled) elems ->
  scan kw N wl elems crawled = ([], crawled).
Proof.
  intros kw N wl. induction elems as [|f rest IH]; intros crawled Hall; [reflexivity|].
  inversion Hall as [|f0 l0 Hf Hrest]; subst. simpl.
  destruct (len crawled >=? N)%Z; [reflexivity|].
  unfold process. destruct (extract kw f) as [r|] eqn:He.
  - rewrite (Hf r He). now apply IH.
  - now apply IH.
Qed.

Lemma scan_leaves_settled : forall kw N wl elems crawled,
  (N <= len (snd (scan kw N wl elems crawled)))%Z \/
  Forall (Derived.settled kw wl (snd (scan kw N wl elems crawled))) elems.
Proof.
  intros kw N wl. induction elems as [|f rest IH]; intros crawled.
  - right. constructor.
  - pose proof (scan_crawled kw N wl) as Hgrow. simpl.
    destruct (Z.geb_spec (len crawled) N) as [Hge|Hlt]; [left; simpl; lia|].
    unfold process. destruct (extract kw f) as [r|] eqn:He.
    + destruct (passes_gate wl crawled (link r)) eqn:Hg.
      * specialize (IH (crawled ++ [link r])%list).
        specialize (Hgrow rest (crawled ++ [link r])%list).
        destruct (scan kw N wl rest (crawled ++ [link r])%list) as [out final].
        simpl in *. destruct IH as [IH|IH]; [now left|]. right.
        constructor; [|assumption].
        intros r' Hr'. rewrite He in Hr'. injection Hr' as <-. unfold passes_gate.
        destruct (skip_post wl (link r)); [reflexivity|].
        assert (Hm : mem (link r) final = true).
        { apply mem_In. rewrite Hgrow. apply in_or_app. left.
          apply in_or_app. right. now left. }
        now rewrite Hm.
      * specialize (IH crawled). specialize (Hgrow rest crawled).
        destruct IH as [IH|IH]; [now left|]. right.
        constructor; [|assumption].
        intros r' Hr'. rewrite He in Hr'. injection Hr' as <-.
        rewrite Hgrow. now apply passes_gate_grows.
    + specialize (IH crawled). destruct IH as [IH|IH]; [now left|]. right.
      constructor; [|assumption]. intros r' Hr'. congruence.
Qed.

(** X5: once a list of visible fragments has been scanned, scanning the
    same fragments again, with the same driver answers, yields nothing and
    leaves [url_crawled] as it is: every fragment is either not a post,
    whitelisted, already recorded, or the cap is reached. *)
Theorem X5_rescan_yields_nothing :
  forall kw N wl elems crawled,
    scan kw N wl elems (snd (scan kw N wl elems crawled)) =
    ([], snd (scan kw N wl elems crawled)).
Proof.
  intros kw N wl elems crawled.
  destruct (scan_leaves_settled kw N wl elems crawled) as [Hcap|Hall].
  - now apply scan_break.
  - now apply scan_settled.
Qed.

(** ** What every yielded record carries *)

Lemma post_date_stripped : forall m d,
  Try.post_date (permalink_locals m) = Some d -> exists t, d = strip t.
Proof.
  intros [a b c d0 e t f g h u p q w] d.
  destruct a, b, c, d0, e, t; run_block; try discriminate.
  destruct f, g, h, u; run_block;
    try (intros H; injection H as <-; now eexists).
  destruct p, q, w; run_block; intros H; injection H as <-; now eexists.
Qed.

(** X6: every record a crawl yields carries the keyword the crawl was
    called with, a [text] that neither starts nor ends with a whitespace
    character, and, when it has one, a [date] of which the same holds. *)
Theorem X6_records_carry_keyword_and_trimmed_text :
  forall self kw N obs r,
    In r (scrape_posts self kw N obs) ->
    keyword r = kw /\
    strip (text r) = text r /\
    (forall w rest, In w whitespace -> text r <> w ++ rest) /\
    (forall w front, In w whitespace -> text r <> front ++ w) /\
    (forall d, date r = Some d ->
               strip d = d /\
               (forall w rest, In w whitespace -> d <> w ++ rest) /\
               (forall w front, In w whitespace -> d <> front ++ w)).
Proof.
  intros self kw N obs r Hr.
  pose proof (Yields_each _ _ _ _ _ _ (scrape_posts_yields self kw N obs)) as Hall.
  rewrite Forall_forall in Hall. destruct (Hall r Hr) as [[f [_ He]] _].
  destruct (extract_inv _ _ _ He) as [body [_ ->]]. simpl.
  destruct (strip_spec body) as [_ [H1 H2]].
  split; [reflexivity|]. split; [apply strip_idem|].
  split; [assumption|]. split; [assumption|].
  intros d Hd. destruct (post_date_stripped _ _ Hd) as [t ->].
  destruct (strip_spec t) as [_ [H3 H4]].
  split; [apply strip_idem | split; assumption].
Qed.

Lemma X6_witness :
  keyword {| name := Some "An"; text := "first post";
             link := Some "https://www.facebook.com/p/1";
             date := Some "1 gio"; images := []; videos := [];
             keyword := "kw" |} = "kw".
Proof.
  refine (proj1 (X6_records_carry_keyword_and_trimmed_text
                   Examples.no_whitelist "kw" 10 Examples.mixed_crawl _ _)).
  vm_compute. left. reflexivity.
Defined.

(** ** Records are never taken back *)

Lemma loop_ended_app : forall kw N wl timeout pre st more,
  snd (loop kw N wl timeout st pre) <> Pending ->
  loop kw N wl timeout st (pre ++ more)%list = loop kw N wl timeout st pre.
Proof.
  intros kw N wl timeout. induction pre as [|c pre IH]; intros st more Hend.
  - destruct (live N st) eqn:Hl.
    + rewrite loop_nil_live in Hend by assumption. now elim Hend.
    + now rewrite !loop_dead by assumption.
  - destruct (live N st) eqn:Hl.
    + simpl app. rewrite loop_cons in Hend |- * by assumption.
      rewrite loop_cons by assumption. cbv zeta in *.
      destruct (timed_out timeout c); [reflexivity|].
      match goal with |- context [loop kw N wl timeout ?s (pre ++ more)%list] =>
        rewrite (IH s more); [reflexivity|];
        destruct (loop kw N wl timeout s pre) as [[o s1] e] end.
      exact Hend.
    + now rewrite !loop_dead by assumption.
Qed.

(** X7: the records yielded while the first cycles are observed stay
    yielded, in the same order, however the crawl goes on; and once the
    loop has been left, by its condition or by the deadline, nothing the
    driver would answer later changes the result. *)
Theorem X7_yields_are_a_stable_prefix :
  forall kw N wl timeout st pre more,
    (exists tail,
        fst (fst (loop kw N wl timeout st (pre ++ more)%list)) =
        (fst (fst (loop kw N wl timeout st pre)) ++ tail)%list) /\
    (snd (loop kw N wl timeout st pre) <> Pending ->
     loop kw N wl timeout st (pre ++ more)%list = loop kw N wl timeout st pre).
Proof.
  intros kw N wl timeout st pre more. split; [|apply loop_ended_app].
  destruct (loop kw N wl timeout st pre) as [[out st'] e] eqn:Hp.
  destruct e.
  - exists []. rewrite loop_ended_app by (rewrite Hp; discriminate).
    rewrite Hp. simpl. now rewrite app_nil_r.
  - exists []. rewrite loop_ended_app by (rewrite Hp; discriminate).
    rewrite Hp. simpl. now rewrite app_nil_r.
  - rewrite (loop_pending_app _ _ _ _ _ _ _ _ more Hp).
    destruct (loop kw N wl timeout st' more) as [[o2 s2] e2].
    now exists o2.
Qed.

Lemma X7_witness :
  loop "kw" 10 [] (50#1) (initial_state Examples.slow_crawl)
       ([Examples.cycle_at [Examples.post_a] 1200 (1#1);
         Examples.cycle_at [Examples.post_b] 1300 (60#1)] ++
        [Examples.cycle_at [Examples.linkless_a] 1400 (61#1)])%list =
  loop "kw" 10 [] (50#1) (initial_state Examples.slow_crawl)
       [Examples.cycle_at [Examples.post_a] 1200 (1#1);
        Examples.cycle_at [Examples.post_b] 1300 (60#1)].
Proof.
  refine (proj2 (X7_yields_are_a_stable_prefix "kw" 10 [] (50#1)
                   (initial_state Examples.slow_crawl)
                   [Examples.cycle_at [Examples.post_a] 1200 (1#1);
                    Examples.cycle_at [Examples.post_b] 1300 (60#1)]
                   [Examples.cycle_at [Examples.linkless_a] 1400 (61#1)]) _).
  vm_compute. discriminate.
Defined.

(** ** How the loop is left *)

Lemma loop_cond_false : forall kw N wl timeout cs st out st',
  loop kw N wl timeout st cs = (out, st', CondFalse) -> live N st' = false.
Proof.
  intros kw N wl timeout. induction cs as [|c cs IH]; intros st out st' H;
    destruct (live N st) eqn:Hl.
  - rewrite loop_nil_live in H by assumption. discriminate.
  - rewrite loop_dead in H by assumption. now injection H as _ <-.
  - rewrite loop_cons in H by assumption. cbv zeta in H.
    destruct (timed_out timeout c); [discriminate|].
    match type of H with context [loop kw N wl timeout ?s cs] =>
      destruct (loop kw N wl timeout s cs) as [[o1 s1] e1] eqn:Hp end.
    injection H as _ <- ->. exact (IH _ _ _ Hp).
  - rewrite loop_dead in H by assumption. now injection H as _ <-.
Qed.

(** X8: when the loop is left by its condition with fewer than five
    stalls on the counter, the cap is what stopped it, and the crawl has
    yielded exactly [max_posts] records (none for [max_posts = 0]). *)
Theorem X8_cap_exit_yields_exactly_max_posts :
  forall self kw N obs out st',
    (0 <= N)%Z ->
    collect self kw N obs = (out, st', CondFalse) ->
    (scroll_attempts st' < 5)%nat ->
    Z.of_nat (List.length out) = N.
Proof.
  intros self kw N obs out st' HN Hc Hlt.
  pose proof (collect_yields self kw N obs) as [Hy Hu].
  rewrite Hc in Hy, Hu. simpl in Hy, Hu.
  pose proof (Yields_length _ _ _ _ _ _ Hy) as Hle.
  unfold collect in Hc. apply loop_cond_false in Hc.
  unfold live in Hc. rewrite Hu in Hc.
  destruct (Nat.ltb_spec (scroll_attempts st') 5) as [_|Hge]; [|lia].
  rewrite andb_true_r in Hc. apply Z.ltb_ge in Hc.
  unfold len in *. rewrite length_map in Hc. simpl in Hle. lia.
Qed.

Lemma X8_witness :
  Z.of_nat (List.length
    [{| name := Some "An"; text := "first post";
        link := Some "https://www.facebook.com/p/1";
        date := Some "1 gio"; images := []; videos := []; keyword := "kw" |};
     {| name := Some "Ad"; text := "buy now";
        link := Some "https://adtracker.example/post/1";
        date := Some "3 gio"; images := []; videos := []; keyword := "kw" |}])
  = 2%Z.
Proof.
  refine (X8_cap_exit_yields_exactly_max_posts
            Examples.no_whitelist "kw" 2 Examples.mixed_crawl _
            {| url_crawled := [Some "https://www.facebook.com/p/1";
                               Some "https://adtracker.example/post/1"];
               last_height := 1200; scroll_attempts := 0 |} _ _ _).
  - lia.
  - vm_compute. reflexivity.
  - simpl. lia.
Defined.

Lemma loop_attempts_bound : forall kw N wl timeout cs st,
  (scroll_attempts st <= 5)%nat ->
  (scroll_attempts (snd (fst (loop kw N wl timeout st cs))) <= 5)%nat.
Proof.
  intros kw N wl timeout. induction cs as [|c cs IH]; intros st Hst;
    destruct (live N st) eqn:Hl;
    try (rewrite loop_dead by assumption; exact Hst).
  - rewrite loop_nil_live by assumption. exact Hst.
  - rewrite loop_cons by assumption. cbv zeta.
    assert (Hn : (next_attempts st c <= 5)%nat).
    { unfold live in Hl. apply andb_prop in Hl. destruct Hl as [_ Hl].
      apply Nat.ltb_lt in Hl. unfold next_attempts.
      destruct (new_height c =? last_height st)%Z; lia. }
    destruct (timed_out timeout c); [exact Hn|].
    match goal with |- context [loop kw N wl timeout ?s cs] =>
      specialize (IH s Hn); destruct (loop kw N wl timeout s cs) as [[o s1] e] end.
    exact IH.
Qed.

(** X9: the stall counter of a crawl never goes past five: it is at most
    5 when the loop is left, however many cycles the driver would still
    answer. *)
Theorem X9_scroll_attempts_at_most_five :
  forall self kw N obs,
    (scroll_attempts (snd (fst (collect self kw N obs))) <= 5)%nat.
Proof.
  intros self kw N obs. unfold collect. apply loop_attempts_bound. simpl. lia.
Qed.

(** ** The author of a post *)

(** X10: when a record has a link, the block got as far as reading the
    location: the record has a date too, and its author is what the first
    selector answered, or, when that lookup raised, what the second one
    answered; when both raise the record keeps link and date and has no
    author. *)
Theorem X10_author_falls_back_to_second_selector :
  forall kw f r url,
    extract kw f = Some r ->
    link r = Some url ->
    current_url (meta f) = Some url /\
    date r <> None /\
    name r = match name_primary (meta f) with
             | Some n => Some n
             | None => name_fallback (meta f)
             end.
Proof.
  intros kw f r url He Hl.
  destruct (extract_inv _ _ _ He) as [body [_ Hr]].
  rewrite Hr in Hl |- *. clear Hr. simpl in *. revert Hl.
  destruct (meta f) as [a b c d e t g h i u p q w].
  destruct a, b, c, d, e, t; run_block; try discriminate.
  destruct g, h, i, u; run_block; try discriminate.
  destruct p, q, w; run_block; intros H; injection H as <-;
    repeat split; discriminate.
Qed.

Lemma X10_witness :
  exists r,
    extract "kw" Derived.fallback_author_post = Some r /\
    name r = Some "Giang" /\ date r = Some "9 phut".
Proof.
  eexists. split; [reflexivity|].
  destruct (X10_author_falls_back_to_second_selector "kw"
              Derived.fallback_author_post _ "https://www.facebook.com/p/9"
              eq_refl eq_refl) as [_ [_ Hn]].
  split; [exact Hn | reflexivity].
Defined.

(** ** Batches handed to [save_to_excel] *)

Lemma saved_batches_app : forall a b,
  Main.saved_batches (a ++ b)%list =
  (Main.saved_batches a ++ Main.saved_batches b)%list.
Proof.
  induction a as [|e a IH]; intros b; [reflexivity|].
  destruct e; simpl; now rewrite IH.
Qed.

Lemma drain_concat : forall bs posts batch,
  (List.concat (Main.saved_batches (fst (Main.drain bs posts batch))) ++
   snd (Main.drain bs posts batch))%list = (batch ++ posts)%list.
Proof.
  intros bs. induction posts as [|p posts IH]; intros batch; simpl.
  - now rewrite app_nil_r.
  - destruct (Z.of_nat (List.length (batch ++ [p])) >=? bs)%Z.
    + specialize (IH []). destruct (Main.drain bs posts []) as [ev fin].
      simpl in *. now rewrite <- !app_assoc, IH.
    + rewrite IH. now rewrite <- app_assoc.
Qed.

Lemma per_keyword_concat : forall bs kw posts batch,
  List.concat (Main.saved_batches (fst (Main.per_keyword bs kw posts batch))) =
    (batch ++ posts)%list /\
  snd (Main.per_keyword bs kw posts batch) = [].
Proof.
  intros bs kw posts batch. unfold Main.per_keyword.
  pose proof (drain_concat bs posts batch) as H.
  destruct (Main.drain bs posts batch) as [ev fin]. simpl in H.
  destruct fin as [|p fin]; simpl.
  - rewrite saved_batches_app. simpl. rewrite !app_nil_r in *. auto.
  - rewrite saved_batches_app, concat_app. simpl. rewrite app_nil_r. auto.
Qed.

Lemma keyword_loop_concat : forall self N bs jobs,
  List.concat (Main.saved_batches (Main.keyword_loop self N bs jobs [])) =
  run self N jobs.
Proof.
  intros self N bs. induction jobs as [|[kw obs] jobs IH]; [reflexivity|].
  simpl.
  destruct (per_keyword_concat bs kw (scrape_posts self kw N obs) []) as [Hc Hf].
  destruct (Main.per_keyword bs kw (scrape_posts self kw N obs) []) as [ev fin].
  simpl in Hc, Hf. subst fin.
  now rewrite saved_batches_app, concat_app, Hc, IH.
Qed.

(** X11: batching loses nothing and repeats nothing: the batches [main]
    hands to [save_to_excel], put end to end, are the records the crawls
    of the keywords yield, in the order they are yielded. *)
Theorem X11_batches_hold_every_record_in_order :
  forall r lines,
    Main.login (Main.url_after_refresh r) = true ->
    Main.keywords_file r = Some lines ->
    List.concat (Main.saved_batches (fst (Main.main r))) =
    run (Main.scraper r) 15 (Main.jobs_of r (Main.load_keywords lines)).
Proof.
  intros r lines Hl Hk. unfold Main.main. rewrite Hl, Hk. simpl fst.
  rewrite saved_batches_app. simpl. rewrite app_nil_r.
  apply keyword_loop_concat.
Qed.

Lemma X11_witness :
  map text (List.concat (Main.saved_batches (fst (Main.main Derived.two_keyword_run)))) =
  ["first post"; "buy now"; "second post"; "no link a"; "no link a"].
Proof.
  rewrite (X11_batches_hold_every_record_in_order Derived.two_keyword_run
             ["k1" ++ Examples.newline; Examples.newline;
              " k2 " ++ Examples.newline] eq_refl eq_refl).
  vm_compute. reflexivity.
Defined.

Lemma scrape_posts_keyword : forall self kw N obs,
  Forall (fun r => keyword r = kw) (scrape_posts self kw N obs).
Proof.
  intros self kw N obs.
  pose proof (Yields_each _ _ _ _ _ _ (scrape_posts_yields self kw N obs)) as Hall.
  apply Forall_impl with (2 := Hall). intros r [[f [_ He]] _].
  destruct (extract_inv _ _ _ He) as [body [_ ->]]. reflexivity.
Qed.

Lemma drain_shape : forall (P : PostRecord -> Prop) posts batch,
  (List.length batch < 5)%nat -> Forall P batch -> Forall P posts ->
  Forall (fun b => List.length b = 5%nat /\ Forall P b)
         (Main.saved_batches (fst (Main.drain 5 posts batch))) /\
  (List.length (snd (Main.drain 5 posts batch)) < 5)%nat /\
  Forall P (snd (Main.drain 5 posts batch)).
Proof.
  intros P. induction posts as [|p posts IH]; intros batch Hlen Hb Hp; simpl.
  - auto.
  - inversion Hp as [|p0 l0 Hp1 Hp2]; subst.
    assert (Hb' : Forall P (batch ++ [p])%list)
      by (apply Forall_app; split; [assumption | now constructor]).
    assert (Hlen' : List.length (batch ++ [p])%list = S (List.length batch))
      by (rewrite length_app; simpl; lia).
    destruct (Z.geb_spec (Z.of_nat (List.length (batch ++ [p]))) 5) as [Hge|Hlt].
    + destruct (IH [] ltac:(simpl; lia) (Forall_nil _) Hp2) as [H1 [H2 H3]].
      destruct (Main.drain 5 posts []) as [ev fin]. simpl in *.
      split; [|auto]. constructor; [|assumption]. split; [lia | assumption].
    + apply IH; [lia | assumption | assumption].
Qed.

Lemma per_keyword_shape : forall (P : PostRecord -> Prop) kw posts,
  Forall P posts ->
  Forall (fun b => (1 <= List.length b <= 5)%nat /\ Forall P b)
         (Main.saved_batches (fst (Main.per_keyword 5 kw posts []))).
Proof.
  intros P kw posts Hp. unfold Main.per_keyword.
  destruct (drain_shape P posts [] ltac:(simpl; lia) (Forall_nil _) Hp)
    as [H1 [H2 H3]].
  destruct (Main.drain 5 posts []) as [ev fin]. simpl in *.
  assert (H1' : Forall (fun b => (1 <= List.length b <= 5)%nat /\ Forall P b)
                       (Main.saved_batches ev)).
  { apply Forall_impl with (2 := H1). intros b [Hb1 Hb2]. split; [lia | assumption]. }
  destruct fin as [|p fin]; simpl; rewrite saved_batches_app; simpl.
  - now rewrite app_nil_r.
  - apply Forall_app. split; [assumption|]. constructor; [|constructor].
    simpl in *. split; [lia | assumption].
Qed.

Lemma keyword_loop_shape : forall self N jobs,
  Forall (fun b => (1 <= List.length b <= 5)%nat /\
                   exists kw, Forall (fun p => keyword p = kw) b)
         (Main.saved_batches (Main.keyword_loop self N 5 jobs [])).
Proof.
  intros self N. induction jobs as [|[kw obs] jobs IH]; [constructor|].
  simpl.
  pose proof (per_keyword_shape (fun p => keyword p = kw) kw
                (scrape_posts self kw N obs)
                (scrape_posts_keyword self kw N obs)) as Hs.
  destruct (per_keyword_concat 5 kw (scrape_posts self kw N obs) []) as [_ Hf].
  destruct (Main.per_keyword 5 kw (scrape_posts self kw N obs) []) as [ev fin].
  simpl in Hs, Hf. subst fin.
  rewrite saved_batches_app. apply Forall_app. split; [|assumption].
  apply Forall_impl with (2 := Hs). intros b [Hb1 Hb2]. split; [assumption|].
  now exists kw.
Qed.

(** X12: every batch [main] hands to [save_to_excel] holds between one
    and five records, all found under the same keyword: a batch is flushed
    at the end of each keyword, so no batch mixes two keywords and no
    empty batch is saved. *)
Theorem X12_batches_are_small_and_of_one_keyword :
  forall r,
    Forall (fun b => (1 <= List.length b <= 5)%nat /\
                     exists kw, Forall (fun p => keyword p = kw) b)
           (Main.saved_batches (fst (Main.main r))).
Proof.
  intros r. unfold Main.main.
  destruct (Main.login (Main.url_after_refresh r)); [|constructor].
  destruct (Main.keywords_file r) as [lines|]; [|constructor].
  simpl fst. rewrite saved_batches_app. simpl. rewrite app_nil_r.
  apply keyword_loop_shape.
Qed.

Lemma drain_only_saves : forall bs posts batch e,
  In e (fst (Main.drain bs posts batch)) -> exists b, e = Main.Saved b.
Proof.
  intros bs. induction posts as [|p posts IH]; intros batch e; simpl; [contradiction|].
  destruct (Z.of_nat (List.length (batch ++ [p])) >=? bs)%Z.
  - specialize (IH [] e). destruct (Main.drain bs posts []) as [ev fin].
    simpl in *. intros [<-|H]; [now eexists | now apply IH].
  - apply IH.
Qed.

Lemma drain_cons : forall bs p posts batch,
  Main.drain bs (p :: posts) batch =
  if (Z.of_nat (List.length (batch ++ [p])) >=? bs)%Z then
    (Main.Saved (batch ++ [p]) :: fst (Main.drain bs posts []),
     snd (Main.drain bs posts []))
  else Main.drain bs posts (batch ++ [p]).
Proof.
  intros bs p posts batch. simpl.
  destruct (Z.of_nat (List.length (batch ++ [p])) >=? bs)%Z; [|reflexivity].
  now destruct (Main.drain bs posts []).
Qed.

Lemma drain_remainder : forall posts batch,
  (List.length batch < 5)%nat ->
  List.length (snd (Main.drain 5 posts batch)) =
  ((List.length batch + List.length posts) mod 5)%nat.
Proof.
  induction posts as [|p posts IH]; intros batch Hlen.
  - change (snd (Main.drain 5 [] batch)) with batch.
    change (List.length (@nil PostRecord)) with 0%nat.
    rewrite Nat.add_0_r. symmetry. now apply Nat.mod_small.
  - assert (Hlen' : List.length (batch ++ [p])%list = S (List.length batch))
      by (rewrite length_app; simpl; lia).
    change (List.length (p :: posts)) with (S (List.length posts)).
    rewrite drain_cons.
    destruct (Z.geb_spec (Z.of_nat (List.length (batch ++ [p]))) 5) as [Hge|Hlt].
    + cbn [snd]. rewrite (IH [] ltac:(simpl; lia)).
      change (List.length (@nil PostRecord)) with 0%nat.
      replace (List.length batch + S (List.length posts))%nat
        with (0 + List.length posts + 1 * 5)%nat by lia.
      now rewrite Nat.Div0.mod_add.
    + rewrite IH by lia. f_equal. lia.
Qed.

(** X13: for a keyword, [main] logs "No posts found" exactly when the
    batch is empty once the keyword's records are consumed, that is when
    the number of records is a multiple of five: after 0 records, but
    also after 5, 10 or 15. *)
Theorem X13_no_posts_logged_on_multiples_of_five :
  forall kw kw' posts,
    In (Main.NoPosts kw') (fst (Main.per_keyword 5 kw posts [])) <->
    kw' = kw /\ (List.length posts mod 5 = 0)%nat.
Proof.
  intros kw kw' posts. unfold Main.per_keyword.
  pose proof (drain_remainder posts [] ltac:(simpl; lia)) as Hr.
  pose proof (drain_only_saves 5 posts [] (Main.NoPosts kw')) as Hs.
  destruct (Main.drain 5 posts []) as [ev fin]. simpl in Hr, Hs.
  destruct fin as [|p fin]; simpl.
  - split.
    + intros H. apply in_app_or in H. destruct H as [H|[H|[]]].
      * destruct (Hs H) as [b Hb]. discriminate.
      * injection H as ->. split; [reflexivity | now rewrite <- Hr].
    + intros [-> _]. apply in_or_app. right. now left.
  - split.
    + intros H. apply in_app_or in H. destruct H as [H|[H|[]]].
      * destruct (Hs H) as [b Hb]. discriminate.
      * discriminate.
    + intros [_ H]. rewrite <- Hr in H. discriminate.
Qed.

Lemma X13_witness :
  In (Main.NoPosts "k1")
     (fst (Main.per_keyword 5 "k1"
             (scrape_posts Examples.no_whitelist "k1" 5 Examples.mixed_crawl
              ++ scrape_posts Examples.no_whitelist "k1" 5 Examples.two_linkless)%list
             [])).
Proof.
  apply (proj2 (X13_no_posts_logged_on_multiples_of_five "k1" "k1" _)).
  split; [reflexivity | vm_compute; reflexivity].
Defined.

Lemma per_keyword_events : forall bs kw posts batch e,
  In e (fst (Main.per_keyword bs kw posts batch)) ->
  (exists b, e = Main.Saved b) \/ e = Main.NoPosts kw.
Proof.
  intros bs kw posts batch e. unfold Main.per_keyword.
  pose proof (drain_only_saves bs posts batch e) as Hs.
  destruct (Main.drain bs posts batch) as [ev fin]. simpl in Hs.
  destruct (Main.nonempty fin); simpl; intros H; apply in_app_or in H;
    destruct H as [H|[<-|[]]]; auto; left; now eexists.
Qed.

Lemma keyword_loop_events : forall self N bs jobs batch e,
  In e (Main.keyword_loop self N bs jobs batch) ->
  (exists b, e = Main.Saved b) \/ (exists kw, e = Main.NoPosts kw).
Proof.
  intros self N bs. induction jobs as [|[kw obs] jobs IH]; intros batch e;
    simpl; [contradiction|].
  pose proof (per_keyword_events bs kw (scrape_posts self kw N obs) batch e) as Hp.
  destruct (Main.per_keyword bs kw (scrape_posts self kw N obs) batch) as [ev fin].
  simpl in Hp. intros H. apply in_app_or in H. destruct H as [H|H].
  - destruct (Hp H) as [Hs| ->]; [now left | right; now eexists].
  - now apply IH with fin.
Qed.

(** X14: on every path through [main] the browser is closed exactly once,
    as the last thing [main] does: after a normal run, when keywords.txt
    is missing, and when the login fails.  When the location after the
    refresh still contains "login", nothing is searched and nothing is
    saved. *)
Theorem X14_browser_closed_once_and_last :
  forall r,
    (exists before,
        fst (Main.main r) = (before ++ [Main.Closed])%list /\
        ~ In Main.Closed before) /\
    (contains "login" (Main.url_after_refresh r) = true ->
     Main.main r = ([Main.LoginFailed; Main.Closed], false)).
Proof.
  intros r. unfold Main.main, Main.login. split.
  - destruct (contains "login" (Main.url_after_refresh r)).
    + exists [Main.LoginFailed]. split; [reflexivity|].
      intros [H|[]]. discriminate.
    + destruct (Main.keywords_file r) as [lines|].
      * eexists. split; [reflexivity|]. intros H.
        apply keyword_loop_events in H.
        destruct H as [[b H]|[kw H]]; discriminate.
      * exists []. split; [reflexivity | intros []].
  - intros ->. reflexivity.
Qed.

Lemma X14_witness :
  Main.main {| Main.url_after_refresh := "https://www.facebook.com/login/?next=home";
               Main.keywords_file := Some ["k1"];
               Main.white_list_lines := None;
               Main.crawl_of_call := fun _ => Examples.mixed_crawl |} =
  ([Main.LoginFailed; Main.Closed], false).
Proof.
  apply (proj2 (X14_browser_closed_once_and_last _)). reflexivity.
Defined.

(** ** Browser options *)

(** X15: ["--headless"] is among the Chrome arguments exactly when
    [headless] is set: no user agent, data directory or profile name can
    put it there or take it away. *)
Theorem X15_headless_flag_only_on_request :
  forall default_dir draw headless proxy_arg user_data_dir profile_name,
    In "--headless"
       (Browser.arguments
          (Browser.create_browser default_dir draw headless proxy_arg
                                  user_data_dir profile_name)) <->
    headless = true.
Proof.
  intros default_dir draw headless proxy_arg user_data_dir profile_name.
  unfold Browser.create_browser. simpl Browser.arguments. split.
  - intros H. destruct headless; [reflexivity|]. exfalso. simpl in H.
    destruct H as [H|[H|[H|[H|H]]]]; try discriminate.
    destruct profile_name as [p|]; [|contradiction].
    destruct (truthy p); [|contradiction].
    destruct H as [H|[H|[]]]; discriminate.
  - intros ->. now left.
Qed.

(** X16: the data directory reaches Chrome only together with a profile
    name.  Without a profile name (absent or empty) the arguments are the
    same whatever [user_data_dir] is; with one, the last two arguments are
    the data directory, the default one when none is given, and the
    profile. *)
Theorem X16_data_dir_needs_a_profile :
  forall default_dir draw headless proxy_arg user_data_dir,
    (forall profile_name other_dir,
        truthy_opt profile_name = false ->
        Browser.create_browser default_dir draw headless proxy_arg
                               user_data_dir profile_name =
        Browser.create_browser default_dir draw headless proxy_arg
                               other_dir profile_name) /\
    (forall profile,
        profile <> "" ->
        exists front,
          Browser.arguments
            (Browser.create_browser default_dir draw headless proxy_arg
                                    user_data_dir (Some profile)) =
          (front ++
           [("user-data-dir=" ++
              (if truthy_opt user_data_dir
               then match user_data_dir with Some d => d | None => "" end
               else default_dir))%string;
            ("--profile-directory=" ++ profile)%string])%list /\
          Forall (fun a => String.prefix "user-data-dir=" a = false) front).
Proof.
  intros default_dir draw headless proxy_arg user_data_dir. split.
  - intros [p|] other_dir Hp; unfold Browser.create_browser; simpl in Hp;
      [rewrite Hp|]; reflexivity.
  - intros profile Hp. apply truthy_nonempty in Hp.
    exists ((if headless then ["--headless"] else []) ++
            ["--disable-blink-features=AutomationControlled";
             "--mute-audio";
             "start-maximized";
             ("user-agent=" ++ Browser.get_random_user_agent draw)%string])%list.
    split.
    + unfold Browser.create_browser. cbn [Browser.arguments]. rewrite Hp.
      rewrite <- app_assoc. do 2 f_equal.
      destruct user_data_dir as [d|]; simpl; [destruct (truthy d)|]; reflexivity.
    + destruct headless; repeat constructor.
Qed.

Lemma X16_witness :
  Browser.create_browser "/home/u/.config/google-chrome" 0 false None
                         (Some "/data/chrome") None =
  Browser.create_browser "/home/u/.config/google-chrome" 0 false None
                         None None.
Proof.
  refine (proj1 (X16_data_dir_needs_a_profile
                   "/home/u/.config/google-chrome" 0 false None
                   (Some "/data/chrome")) None None _).
  reflexivity.
Defined.

(** ** No post is passed over silently *)

(** X17: after a batch of visible fragments is scanned, every fragment of
    the batch for which a record is built and whose link is not
    whitelisted has its link in [url_crawled], unless the cap was reached:
    a post is left out only as a duplicate, as whitelisted, or for the
    cap. *)
Theorem X17_scanned_posts_are_recorded :
  forall kw N wl elems crawled f r,
    In f elems ->
    extract kw f = Some r ->
    skip_post wl (link r) = false ->
    (N <= len (snd (scan kw N wl elems crawled)))%Z \/
    In (link r) (snd (scan kw N wl elems crawled)).
Proof.
  intros kw N wl elems crawled f r Hin He Hs.
  destruct (scan_leaves_settled kw N wl elems crawled) as [Hcap|Hall];
    [now left | right].
  rewrite Forall_forall in Hall. specialize (Hall f Hin r He).
  unfold passes_gate in Hall. rewrite Hs in Hall.
  apply mem_In. now destruct (mem (link r) (snd (scan kw N wl elems crawled))).
Qed.

Lemma X17_witness :
  (10 <= len (snd (scan "kw" 10 [] [Examples.post_a; Examples.widget; Examples.post_b] [])))%Z \/
  In (Some "https://www.facebook.com/p/2")
     (snd (scan "kw" 10 [] [Examples.post_a; Examples.widget; Examples.post_b] [])).
Proof.
  refine (X17_scanned_posts_are_recorded "kw" 10 []
            [Examples.post_a; Examples.widget; Examples.post_b] []
            Examples.post_b
            {| name := Some "Binh"; text := "second post";
               link := Some "https://www.facebook.com/p/2";
               date := Some "2 gio"; images := []; videos := [];
               keyword := "kw" |} _ _ _).
  - simpl. right. right. left. reflexivity.
  - reflexivity.
  - reflexivity.
Defined.

(** ** The deadline does not strike early *)

Lemma loop_timed_out : forall kw N wl timeout cs st out st',
  loop kw N wl timeout st cs = (out, st', TimedOut) ->
  exists pre c post,
    cs = (pre ++ c :: post)%list /\
    timed_out timeout c = true /\
    Forall (fun c' => timed_out timeout c' = false) pre.
Proof.
  intros kw N wl timeout. induction cs as [|c cs IH]; intros st out st' H;
    destruct (live N st) eqn:Hl;
    try (rewrite loop_dead in H by assumption; discriminate).
  - rewrite loop_nil_live in H by assumption. discriminate.
  - rewrite loop_cons in H by assumption. cbv zeta in H.
    destruct (timed_out timeout c) eqn:Ht.
    + exists [], c, cs. repeat split; auto.
    + match type of H with context [loop kw N wl timeout ?s cs] =>
        destruct (loop kw N wl timeout s cs) as [[o1 s1] e1] eqn:Hp end.
      injection H as _ _ ->.
      destruct (IH _ _ _ Hp) as [pre [c' [post [-> [Hc' Hpre]]]]].
      exists (c :: pre), c', post. repeat split; auto.
Qed.

(** X18: the loop is left through the [break] of line 359 only by a cycle
    that ends after the deadline, and every cycle before it ended at or
    before the deadline: the crawl of a keyword is never cut short while
    the clock is within [max_posts * 5] of its start. *)
Theorem X18_timeout_only_after_the_deadline :
  forall self kw N obs out st',
    collect self kw N obs = (out, st', TimedOut) ->
    exists pre c post,
      cycles obs = (pre ++ c :: post)%list /\
      (deadline N obs < now c)%Q /\
      Forall (fun c' => (now c' <= deadline N obs)%Q) pre.
Proof.
  intros self kw N obs out st' H. unfold collect in H.
  destruct (loop_timed_out _ _ _ _ _ _ _ _ H) as [pre [c [post [Hcs [Hc Hpre]]]]].
  exists pre, c, post. split; [assumption|]. split.
  - unfold timed_out in Hc. apply Qnot_le_lt. intros Hle.
    apply Qle_bool_iff in Hle. rewrite Hle in Hc. discriminate.
  - apply Forall_impl with (2 := Hpre). intros c' Hc'.
    unfold timed_out in Hc'. apply Qle_bool_iff.
    now destruct (Qle_bool (now c') (deadline N obs)).
Qed.

Lemma X18_witness :
  exists pre c post,
    cycles Examples.slow_crawl = (pre ++ c :: post)%list /\
    (deadline 10 Examples.slow_crawl < now c)%Q /\
    Forall (fun c' => (now c' <= deadline 10 Examples.slow_crawl)%Q) pre.
Proof.
  refine (X18_timeout_only_after_the_deadline
            Examples.no_whitelist "kw" 10 Examples.slow_crawl
            (fst (fst (collect Examples.no_whitelist "kw" 10 Examples.slow_crawl)))
            (snd (fst (collect Examples.no_whitelist "kw" 10 Examples.slow_crawl)))
            _).
  vm_compute. reflexivity.
Defined.

Lemma X15_witness :
  In "--headless"
     (Browser.arguments
        (Browser.create_browser "/home/u/.config/google-chrome" 2 true None
                                None (Some "Profile 1"))).
Proof.
  apply (proj2 (X15_headless_flag_only_on_request
                  "/home/u/.config/google-chrome" 2 true None
                  None (Some "Profile 1"))).
  reflexivity.
Defined.
